(** * gcs-driver: an FTP storage driver over a flat object store

    A shallow embedding of [driver.go] and [fileinfo.go].  The driver is
    written against the Google Cloud Storage client; every call that
    leaves the driver (object get/list/insert/copy/delete, the listing
    callback, logging, the clock) is a request of a small free monad, so
    that the same driver text can be run against any backend behaviour,
    including failing ones, and against an in-memory reference store. *)

From stdpp Require Import gmap strings list fin_maps.
From Stdlib Require Import ZArith String Ascii.

Open Scope string_scope.
Open Scope Z_scope.

(** ** The functions of Go's [strings] package used by the driver

    Go strings are modelled by [string]; one [ascii] stands for one
    character.  For ASCII text this is exactly Go's byte string, and all
    the functions below then agree with their rune-based Go versions. *)

(** [strings.HasPrefix(s, prefix)] *)
Fixpoint strings_HasPrefix (s prefix : string) {struct prefix} : bool :=
  match prefix with
  | EmptyString => true
  | String p prefix' =>
      match s with
      | EmptyString => false
      | String c s' => if Ascii.eqb c p then strings_HasPrefix s' prefix' else false
      end
  end.

(** [strings.HasSuffix(s, suffix)]: some tail of [s] is [suffix]. *)
Fixpoint strings_HasSuffix (s suffix : string) : bool :=
  if String.eqb s suffix then true
  else match s with
       | EmptyString => false
       | String _ s' => strings_HasSuffix s' suffix
       end.

(** [strings.Contains(s, substr)] *)
Fixpoint strings_Contains (s substr : string) : bool :=
  if strings_HasPrefix s substr then true
  else match s with
       | EmptyString => false
       | String _ s' => strings_Contains s' substr
       end.

(** Membership of a character in a cutset. *)
Fixpoint in_cutset (c : ascii) (cutset : string) : bool :=
  match cutset with
  | EmptyString => false
  | String x cutset' => if Ascii.eqb c x then true else in_cutset c cutset'
  end.

(** [strings.TrimLeft(s, cutset)]: drops every leading character of [s]
    that occurs anywhere in [cutset].  The second argument is a set of
    characters, not a prefix. *)
Fixpoint strings_TrimLeft (s cutset : string) : string :=
  match s with
  | EmptyString => EmptyString
  | String c s' => if in_cutset c cutset then strings_TrimLeft s' cutset else s
  end.

(** [strings.TrimRight(s, cutset)] *)
Fixpoint strings_TrimRight (s cutset : string) : string :=
  match s with
  | EmptyString => EmptyString
  | String c s' =>
      match strings_TrimRight s' cutset with
      | EmptyString => if in_cutset c cutset then EmptyString else String c EmptyString
      | t => String c t
      end
  end.

(** [strings.Trim(s, cutset)] *)
Definition strings_Trim (s cutset : string) : string :=
  strings_TrimRight (strings_TrimLeft s cutset) cutset.

(** [strings.Split(s, sep)].  With an empty separator Go explodes the
    string into its characters; otherwise the pieces between successive,
    non-overlapping occurrences of [sep] (always at least one piece). *)
Fixpoint explode (s : string) : list string :=
  match s with
  | EmptyString => []
  | String c s' => String c EmptyString :: explode s'
  end.

Fixpoint split_from (s sep : string) (skip : nat) (cur : string) : list string :=
  match s with
  | EmptyString => [cur]
  | String c s' =>
      match skip with
      | S k => split_from s' sep k cur
      | O =>
          if strings_HasPrefix s sep
          then cur :: split_from s' sep (Nat.pred (String.length sep)) EmptyString
          else split_from s' sep O (cur ++ String c EmptyString)
      end
  end.

Definition strings_Split (s sep : string) : list string :=
  match sep with
  | EmptyString => explode s
  | _ => split_from s sep O EmptyString
  end.

(** [strings.Replace(s, old, new, n)] for [n >= 0]: the first [n]
    non-overlapping occurrences of [old], from the left, become [new].
    An empty [old] matches before every character and at the end. *)
Fixpoint replace_from (s old new : string) (n skip : nat) : string :=
  match s with
  | EmptyString =>
      match n, old, skip with
      | S _, EmptyString, O => new
      | _, _, _ => EmptyString
      end
  | String c s' =>
      match skip with
      | S k => replace_from s' old new n k
      | O =>
          match n with
          | S n' =>
              if strings_HasPrefix s old
              then new ++ match String.length old with
                          | O => String c (replace_from s' old new n' O)
                          | S k => replace_from s' old new n' k
                          end
              else String c (replace_from s' old new n O)
          | O => String c (replace_from s' old new O O)
          end
      end
  end.

Definition strings_Replace (s old new : string) (n : nat) : string :=
  if String.eqb old new then s else replace_from s old new n O.

(** ** Errors

    A Go [error] is either [nil] or a value with an [Error()] text.
    [io.EOF] is a distinguished value compared by identity. *)

Inductive error_value : Type :=
| io_EOF
| errors_New (text : string).

Definition error : Type := option error_value.

Definition Error (e : error_value) : string :=
  match e with
  | io_EOF => "EOF"
  | errors_New text => text
  end.

#[global] Instance error_value_eq_dec : EqDecision error_value.
Proof. solve_decision. Defined.

(** ** Object records of the storage client *)

Module storage.

(** Modelled from the spec: the declaration of [storage.Object] belongs
    to the client library; these are the metadata fields the driver
    consumes ([Name], [Size], [Updated], [MediaLink], [SelfLink]).
    [Size] is an unsigned 64-bit number. *)
Record Object : Type := mkObject {
  Name : string;
  Size : Z;
  Updated : string;
  MediaLink : string;
  SelfLink : string
}.

(** The zero value [storage.Object{}]. *)
Definition Object_zero : Object :=
  {| Name := ""; Size := 0; Updated := ""; MediaLink := ""; SelfLink := "" |}.

(** The result of a listing: [storage.Objects], of which the driver
    reads [Items]. *)
Record Objects : Type := mkObjects { Items : list Object }.

#[global] Instance Object_eq_dec : EqDecision Object.
Proof. solve_decision. Defined.

End storage.

(** ** fileinfo.go *)

Record FileInfo : Type := mkFileInfo {
  name : string;
  isDir : bool;
  User : string;
  Object : storage.Object
}.

#[global] Instance FileInfo_eq_dec : EqDecision FileInfo.
Proof. solve_decision. Defined.

Definition Name (f : FileInfo) : string := name f.

(** [(int64)(f.Object.Size)]: the unsigned size reinterpreted as a signed
    64-bit number. *)
Definition Size (f : FileInfo) : Z :=
  let u := storage.Size (Object f) mod 2 ^ 64 in
  if u <? 2 ^ 63 then u else u - 2 ^ 64.

Definition os_ModeDir : Z := Z.shiftl 1 31.
Definition os_ModePerm : Z := 511.

Definition Mode (f : FileInfo) : Z :=
  if isDir f then Z.lor os_ModeDir os_ModePerm else os_ModePerm.

Definition IsDir (f : FileInfo) : bool := isDir f.

Definition Owner (f : FileInfo) : string := User f.

Definition Group (f : FileInfo) : string := User f.

(** ** The driver's state *)

(** The session handle; the driver only asks it for the logged-in user. *)
Record Conn : Type := mkConn { user : string }.

Definition LoginUser (c : Conn) : string := user c.

Record GoogleStorageDriver : Type := mkDriver {
  curDir : string;
  bucket : string;
  bucketPerUser : bool;
  conn : Conn
}.

Definition getUserBucket (driver : GoogleStorageDriver) : string :=
  if bucketPerUser driver
  then bucket driver ++ "-" ++ LoginUser (conn driver)
  else bucket driver.

(** ** Calls that leave the driver

    [time.Time] is an instant, here a number of seconds. *)

Definition Time : Type := Z.

Inductive request : Type :=
| Objects_Get (bkt key : string)
| Objects_List (bkt prefix : string)
| Objects_Insert (bkt : string) (object : storage.Object) (media : string)
| Objects_Copy (srcBucket srcObject dstBucket dstObject : string)
| Objects_Delete (bkt key : string)
| Visit (f : FileInfo)
| fmt_Println (args : list string)
| log_Error (text : string)
| time_Now.

(** What each call hands back.  The client's [Do()] returns a pointer and
    an error; both are kept, as in Go. *)
Definition response (r : request) : Type :=
  match r with
  | Objects_Get _ _ => (option storage.Object * error)%type
  | Objects_List _ _ => (option storage.Objects * error)%type
  | Objects_Insert _ _ _ => (option storage.Object * error)%type
  | Objects_Copy _ _ _ _ => (option storage.Object * error)%type
  | Objects_Delete _ _ => error
  | Visit _ => error
  | fmt_Println _ => unit
  | log_Error _ => unit
  | time_Now => Time
  end.

Definition is_delete_call (r : request) : bool :=
  match r with
  | Objects_Delete _ _ => true
  | _ => false
  end.

(** A driver operation: it returns, makes a call and goes on with the
    answer, ends the process ([log.Fatal]) or panics (a nil pointer is
    dereferenced). *)
Inductive gcs (A : Type) : Type :=
| Ret (a : A)
| Fatal (text : string)
| Panic (text : string)
| Call (r : request) (k : response r -> gcs A).

Arguments Ret {A} a.
Arguments Fatal {A} text.
Arguments Panic {A} text.
Arguments Call {A} r k.

Fixpoint bind {A B : Type} (m : gcs A) (f : A -> gcs B) : gcs B :=
  match m with
  | Ret a => f a
  | Fatal text => Fatal text
  | Panic text => Panic text
  | Call r k => Call r (fun x => bind (k x) f)
  end.

Definition call (r : request) : gcs (response r) := Call r Ret.

#[global] Instance gcs_ret : MRet gcs := @Ret.
#[global] Instance gcs_bind : MBind gcs := fun A B f m => bind m f.

Definition nil_dereference : string := "invalid memory address or nil pointer dereference".

(** ** fileinfo.go: the modification time *)

Section ModTime.

(** [time.Parse(layout, value)] of Go's standard library. *)
Variable time_Parse : string -> string -> Time + error_value.

Definition time_RFC3339 : string := "2006-01-02T15:04:05Z07:00".

Definition ModTime (f : FileInfo) : gcs Time :=
  match time_Parse time_RFC3339 (storage.Updated (Object f)) with
  | inr _ =>
      call (log_Error ("Could not parse time for string " ++ storage.Updated (Object f)));;
      now ← call time_Now;
      Ret now
  | inl parsed => Ret parsed
  end.

End ModTime.

(** ** driver.go *)

(** [driver.Stat(key)] *)
Definition Stat (driver : GoogleStorageDriver) (key : string)
  : gcs (option FileInfo * error) :=
  let user := LoginUser (conn driver) in
  if strings_HasSuffix key "/" then
    let result :=
      {| name := key; isDir := true; User := user; Object := storage.Object_zero |} in
    Ret (Some result, None)
  else
    '(entry, err) ← call (Objects_Get (getUserBucket driver) (strings_TrimLeft key "/"));
    match err with
    | Some _ =>
        '(entries, err) ←
          call (Objects_List (getUserBucket driver) (strings_TrimLeft key "/"));
        match err with
        | Some _ => Fatal "Could not list objects"
        | None =>
            match entries with
            | None => Panic nil_dereference
            | Some entries =>
                if (0 <? List.length (storage.Items entries))%nat then
                  let result :=
                    {| name := key; isDir := true;
                       User := LoginUser (conn driver);
                       Object := storage.Object_zero |} in
                  Ret (Some result, None)
                else
                  Ret (None, Some (errors_New "This directory does not exist"))
            end
        end
    | None =>
        match entry with
        | None => Panic nil_dereference
        | Some entry =>
            let result :=
              {| name := key; isDir := false; User := user; Object := entry |} in
            Ret (Some result, None)
        end
    end.

(** [driver.ChangeDir(path)]: the driver with its new current directory,
    and the error. *)
Definition ChangeDir (driver : GoogleStorageDriver) (path : string)
  : gcs (GoogleStorageDriver * error) :=
  '(f, err) ← Stat driver path;
  match err with
  | Some e => Ret (driver, Some e)
  | None =>
      match f with
      | None => Panic nil_dereference
      | Some f =>
          if negb (IsDir f) then Ret (driver, Some (errors_New "Not a directory"))
          else
            Ret ({| curDir := path; bucket := bucket driver;
                    bucketPerUser := bucketPerUser driver; conn := conn driver |}, None)
      end
  end.

(** The body of the [for _, entry := range entries.Items] loop of
    [ListDir]; [dirCache] is the map of directory names already handed to
    the callback. *)
Fixpoint ListDir_range (driver : GoogleStorageDriver) (prefix d : string)
    (callback : FileInfo -> gcs error)
    (dirCache : gmap string bool) (items : list storage.Object) : gcs error :=
  match items with
  | [] => Ret None
  | entry :: rest =>
      if negb (String.eqb prefix "/") && negb (String.eqb prefix "")
         && negb (strings_HasPrefix (storage.Name entry) d)
      then ListDir_range driver prefix d callback dirCache rest
      else
        let key := strings_TrimLeft (strings_TrimLeft (storage.Name entry) d) "/" in
        if String.eqb key "" then ListDir_range driver prefix d callback dirCache rest
        else if strings_Contains key "/" then
          match strings_Split key "/" with
          | [] => Panic "index out of range"
          | first :: _ =>
              let key := strings_Trim first "/" in
              match dirCache !! key with
              | Some _ => ListDir_range driver prefix d callback dirCache rest
              | None =>
                  let dirCache := <[key := true]> dirCache in
                  let f := {| name := key; isDir := true; Object := entry;
                              User := LoginUser (conn driver) |} in
                  err ← callback f;
                  match err with
                  | Some e => Ret (Some e)
                  | None => ListDir_range driver prefix d callback dirCache rest
                  end
              end
          end
        else
          let f := {| name := key; isDir := false; Object := entry;
                      User := LoginUser (conn driver) |} in
          err ← callback f;
          match err with
          | Some e => Ret (Some e)
          | None => ListDir_range driver prefix d callback dirCache rest
          end
  end.

(** [driver.ListDir(prefix, callback)] *)
Definition ListDir (driver : GoogleStorageDriver) (prefix : string)
    (callback : FileInfo -> gcs error) : gcs error :=
  let d := strings_TrimLeft prefix "/" in
  let d := if negb (String.eqb d "") then d ++ "/" else d in
  '(entries, err) ← call (Objects_List (getUserBucket driver) d);
  let err := if decide (err = Some io_EOF) then None else err in
  match err with
  | Some e => Ret (Some e)
  | None =>
      match entries with
      | None => Panic nil_dereference
      | Some entries =>
          ListDir_range driver prefix d callback ∅ (storage.Items entries)
      end
  end.

(** The deleting loop of [DeleteDir]. *)
Fixpoint DeleteDir_range (driver : GoogleStorageDriver)
    (items : list storage.Object) : gcs error :=
  match items with
  | [] => Ret None
  | entry :: rest =>
      err ← call (Objects_Delete (getUserBucket driver) (storage.Name entry));
      match err with
      | Some e => Ret (Some e)
      | None => DeleteDir_range driver rest
      end
  end.

(** [driver.DeleteDir(key)] *)
Definition DeleteDir (driver : GoogleStorageDriver) (key : string) : gcs error :=
  let d := strings_TrimLeft key "/" in
  '(entries, err) ← call (Objects_List (getUserBucket driver) d);
  let err := if decide (err = Some io_EOF) then None else err in
  match err with
  | Some e => Ret (Some e)
  | None =>
      match entries with
      | None => Panic nil_dereference
      | Some entries =>
          if (List.length (storage.Items entries) =? 0)%nat then Ret None
          else DeleteDir_range driver (storage.Items entries)
      end
  end.

(** [driver.DeleteFile(key)] *)
Definition DeleteFile (driver : GoogleStorageDriver) (key : string) : gcs error :=
  call (fmt_Println ["delete file"; key]);;
  call (Objects_Delete (getUserBucket driver) (strings_TrimLeft key "/")).

(** The copy-then-delete loop of the directory branch of [Rename]. *)
Fixpoint Rename_range (driver : GoogleStorageDriver) (from to : string)
    (items : list storage.Object) : gcs error :=
  match items with
  | [] => Ret None
  | entry :: rest =>
      let newName := strings_Replace (storage.Name entry) from to 1 in
      '(_, err) ← call (Objects_Copy (getUserBucket driver) (storage.Name entry)
                                     (getUserBucket driver) newName);
      match err with
      | Some e => Ret (Some e)
      | None =>
          err ← call (Objects_Delete (getUserBucket driver) (storage.Name entry));
          match err with
          | Some e => Ret (Some e)
          | None => Rename_range driver from to rest
          end
      end
  end.

Definition no_such_file : string := "no such file or directory".

(** [driver.Rename(keySrc, keyDest)] *)
Definition Rename (driver : GoogleStorageDriver) (keySrc keyDest : string) : gcs error :=
  call (fmt_Println ["rename from"; keySrc; keyDest]);;
  let from := strings_TrimLeft keySrc "/" in
  let to := strings_TrimLeft keyDest "/" in
  '(_, err) ← call (Objects_Get (getUserBucket driver) from);
  match err with
  | Some e =>
      if strings_Contains (Error e) no_such_file then
        let from := strings_TrimLeft keySrc "/" ++ "/" in
        let to := strings_TrimLeft keyDest "/" ++ "/" in
        '(_, err) ← call (Objects_Get (getUserBucket driver) from);
        match err with
        | Some e => Ret (Some e)
        | None =>
            '(entries, err) ← call (Objects_List (getUserBucket driver) from);
            match err with
            | Some e => Ret (Some e)
            | None =>
                match entries with
                | None => Panic nil_dereference
                | Some entries => Rename_range driver from to (storage.Items entries)
                end
            end
        end
      else
        call (fmt_Println [Error e]);;
        Ret (Some e)
  | None =>
      '(_, _) ← call (Objects_Copy (getUserBucket driver) from (getUserBucket driver) to);
      err ← call (Objects_Delete (getUserBucket driver) from);
      Ret err
  end.

(** [driver.MakeDir(path)]: a zero-byte object under the directory key. *)
Definition MakeDir (driver : GoogleStorageDriver) (path : string) : gcs error :=
  let dir := strings_TrimLeft path "/" ++ "/" in
  call (fmt_Println ["mkdir"; dir]);;
  let object := {| storage.Name := dir; storage.Size := 0; storage.Updated := "";
                   storage.MediaLink := ""; storage.SelfLink := "" |} in
  '(_, err) ← call (Objects_Insert (getUserBucket driver) object "");
  Ret err.

(** ** Running a driver operation against a backend *)

Inductive outcome (A : Type) : Type :=
| Returned (a : A)
| Exited (text : string)
| Panicked (text : string).

Arguments Returned {A} a.
Arguments Exited {A} text.
Arguments Panicked {A} text.

(** A world answers every call and moves to its next state. *)
Definition handler (W : Type) : Type := ∀ r : request, W → response r * W.

Fixpoint run {W A : Type} (h : handler W) (p : gcs A) (w : W) : outcome A * W :=
  match p with
  | Ret a => (Returned a, w)
  | Fatal text => (Exited text, w)
  | Panic text => (Panicked text, w)
  | Call r k => let '(x, w') := h r w in run h (k x) w'
  end.

(** The same world, also keeping the calls made, oldest first. *)
Definition traced {W : Type} (h : handler W) : handler (W * list request) :=
  fun r '(w, t) => let '(x, w') := h r w in (x, (w', (t ++ [r])%list)).

(** ** An in-memory reference backend *)

Definition named (key : string) (o : storage.Object) : storage.Object :=
  {| storage.Name := key; storage.Size := storage.Size o;
     storage.Updated := storage.Updated o;
     storage.MediaLink := storage.MediaLink o;
     storage.SelfLink := storage.SelfLink o |}.

(** The objects, by bucket and key; the entities handed to the listing
    callback so far, oldest first; the clock. *)
Record World : Type := mkWorld {
  objects : gmap (string * string) storage.Object;
  visited : list FileInfo;
  clock : Time
}.

Definition with_objects (w : World) (m : gmap (string * string) storage.Object) : World :=
  {| objects := m; visited := visited w; clock := clock w |}.

(** The objects of bucket [bkt] whose key begins with [prefix]. *)
Definition listing (m : gmap (string * string) storage.Object) (bkt prefix : string)
  : list storage.Object :=
  omap (fun '((b, k), o) =>
          if String.eqb b bkt && strings_HasPrefix k prefix
          then Some (named k o) else None)
       (map_to_list m).

(** Modelled from the spec: the backend is the client library's, not the
    driver's.  This one follows the backend contract of the spec
    (GetObject, ListObjects, InsertObject, CopyObject, DeleteObject over a
    flat key space) and its glossary: a prefix listing returns all objects
    whose key begins with the given string.  A missing object is reported
    with the error text [notfound]; nothing else fails.  The callback
    [Visit] records the entity and reports no error. *)
Definition memory (notfound : string) : handler World :=
  fun r w =>
    match r return response r * World with
    | Objects_Get b k =>
        match objects w !! (b, k) with
        | Some o => ((Some (named k o), None), w)
        | None => ((None, Some (errors_New notfound)), w)
        end
    | Objects_List b p =>
        ((Some {| storage.Items := listing (objects w) b p |}, None), w)
    | Objects_Insert b o media =>
        let o' := {| storage.Name := storage.Name o;
                     storage.Size := Z.of_nat (String.length media);
                     storage.Updated := storage.Updated o;
                     storage.MediaLink := storage.MediaLink o;
                     storage.SelfLink := storage.SelfLink o |} in
        ((Some o', None), with_objects w (<[(b, storage.Name o) := o']> (objects w)))
    | Objects_Copy sb sk db dk =>
        match objects w !! (sb, sk) with
        | Some o =>
            ((Some (named dk o), None), with_objects w (<[(db, dk) := named dk o]> (objects w)))
        | None => ((None, Some (errors_New notfound)), w)
        end
    | Objects_Delete b k =>
        match objects w !! (b, k) with
        | Some _ => (None, with_objects w (delete (b, k) (objects w)))
        | None => (Some (errors_New notfound), w)
        end
    | Visit f =>
        (None, {| objects := objects w; visited := (visited w ++ [f])%list; clock := clock w |})
    | fmt_Println _ => (tt, w)
    | log_Error _ => (tt, w)
    | time_Now => (clock w, w)
    end.

(** The callback that hands each entity to the world. *)
Definition visitor (f : FileInfo) : gcs error := call (Visit f).

Definition obj (key : string) (size : Z) (updated : string) : storage.Object :=
  {| storage.Name := key; storage.Size := size; storage.Updated := updated;
     storage.MediaLink := ""; storage.SelfLink := "" |}.

(** A driver on bucket [bkt] for user [alice], and worlds holding a given
    list of objects in that bucket. *)
Definition alice_driver : GoogleStorageDriver :=
  {| curDir := "/"; bucket := "bkt"; bucketPerUser := false;
     conn := {| user := "alice" |} |}.

Definition world_of (l : list storage.Object) : World :=
  {| objects := list_to_map (map (fun o => (("bkt", storage.Name o), o)) l);
     visited := []; clock := 42 |}.

(** A backend on which every copy fails, and which otherwise behaves as
    [memory]. *)
Definition memory_copy_fails (notfound : string) : handler World :=
  fun r w =>
    match r return response r * World with
    | Objects_Copy _ _ _ _ => ((None, Some (errors_New "copy failed")), w)
    | r' => memory notfound r' w
    end.

(** A sample [time.Parse] for running [ModTime]: it reads the UTC form
    [YYYY-MM-DDTHH:MM:SSZ] of RFC 3339 into seconds since 1970 and rejects
    every other text. *)
Definition digit (c : ascii) : option Z :=
  let n := Z.of_nat (nat_of_ascii c) in
  if (48 <=? n) && (n <=? 57) then Some (n - 48) else None.

Fixpoint number (s : string) (acc : Z) : option Z :=
  match s with
  | EmptyString => Some acc
  | String c s' =>
      match digit c with
      | Some v => number s' (10 * acc + v)
      | None => None
      end
  end.

Definition days_from_civil (y m d : Z) : Z :=
  let y' := if m <=? 2 then y - 1 else y in
  let era := y' / 400 in
  let yoe := y' - era * 400 in
  let doy := (153 * (if 2 <? m then m - 3 else m + 9) + 2) / 5 + d - 1 in
  let doe := yoe * 365 + yoe / 4 - yoe / 100 + doy in
  era * 146097 + doe - 719468.

Definition sample_Parse (layout value : string) : Time + error_value :=
  let bad := inr (errors_New ("parsing time " ++ value ++ " as " ++ layout)) in
  if negb (String.length value =? 20)%nat then bad
  else if negb (String.eqb (substring 4 1 value ++ substring 7 1 value
                            ++ substring 10 1 value ++ substring 13 1 value
                            ++ substring 16 1 value ++ substring 19 1 value) "--T::Z")
  then bad
  else
    match number (substring 0 4 value) 0, number (substring 5 2 value) 0,
          number (substring 8 2 value) 0, number (substring 11 2 value) 0,
          number (substring 14 2 value) 0, number (substring 17 2 value) 0 with
    | Some y, Some m, Some d, Some hh, Some mm, Some ss =>
        if (1 <=? m) && (m <=? 12) && (1 <=? d) && (d <=? 31)
           && (hh <=? 23) && (mm <=? 59) && (ss <=? 59)
        then inl (days_from_civil y m d * 86400 + hh * 3600 + mm * 60 + ss)
        else bad
    | _, _, _, _, _, _ => bad
    end.

(** The store after deleting the keys of [l] from bucket [b], one by one. *)
Definition delete_all (b : string) (l : list storage.Object)
    (m : gmap (string * string) storage.Object) : gmap (string * string) storage.Object :=
  foldl (fun m o => delete (b, storage.Name o) m) m l.

(** What one round of the loop does to the store when both calls succeed. *)
Definition rename_step (b from to : string)
    (m : gmap (string * string) storage.Object) (o : storage.Object)
  : gmap (string * string) storage.Object :=
  let newName := strings_Replace (storage.Name o) from to 1 in
  match m !! (b, storage.Name o) with
  | Some x => delete (b, storage.Name o) (<[(b, newName) := named newName x]> m)
  | None => m
  end.

(** A list of objects can be moved from prefix [from] to prefix [to]:
    the sources are distinct, no destination is a source, and distinct
    sources have distinct destinations. *)
Definition movable (from to : string) (l : list storage.Object) : Prop :=
  let dest := fun k => strings_Replace k from to 1 in
  NoDup (storage.Name <$> l) ∧
  (∀ o o', o ∈ l → o' ∈ l → dest (storage.Name o) ≠ storage.Name o') ∧
  (∀ o o', o ∈ l → o' ∈ l → dest (storage.Name o) = dest (storage.Name o') →
           storage.Name o = storage.Name o').

(** The names under which the directory entities of a record of calls
    were handed to the callback, oldest first. *)
Definition directory_names (t : list request) : list string :=
  omap (fun r => match r with
                 | Visit f => if isDir f then Some (name f) else None
                 | _ => None
                 end) t.

(** The entities handed to the callback in a record of calls, oldest
    first. *)
Definition visits (t : list request) : list FileInfo :=
  omap (fun r => match r with Visit f => Some f | _ => None end) t.

(** The bucket and key of each delete in a record of calls, oldest first. *)
Definition deletes (t : list request) : list (string * string) :=
  omap (fun r => match r with Objects_Delete b k => Some (b, k) | _ => None end) t.

(** The error with which the faulty backend below fails. *)
Definition unavailable : error_value := errors_New "backend unavailable".

(** A backend that fails the calls selected by [faulty], leaving the store
    as it is, and otherwise behaves as [memory]. *)
Definition memory_faulty (faulty : request → bool) (notfound : string) : handler World :=
  fun r w =>
    if faulty r then
      match r return response r * World with
      | Objects_Get _ _ => ((None, Some unavailable), w)
      | Objects_List _ _ => ((None, Some unavailable), w)
      | Objects_Insert _ _ _ => ((None, Some unavailable), w)
      | Objects_Copy _ _ _ _ => ((None, Some unavailable), w)
      | Objects_Delete _ _ => (Some unavailable, w)
      | Visit _ => (Some unavailable, w)
      | r' => memory notfound r' w
      end
    else memory notfound r w.

(** A backend whose listings answer with the end-of-data marker and no
    result, and which otherwise behaves as [memory]. *)
Definition memory_end_of_data (notfound : string) : handler World :=
  fun r w =>
    match r return response r * World with
    | Objects_List _ _ => ((None, Some io_EOF), w)
    | r' => memory notfound r' w
    end.

(** The entities the loop of [ListDir] hands, in order, to a callback that
    never reports an error: the loop with the callback taken out. *)
Fixpoint ListDir_entities (driver : GoogleStorageDriver) (prefix d : string)
    (dirCache : gmap string bool) (items : list storage.Object) : list FileInfo :=
  match items with
  | [] => []
  | entry :: rest =>
      if negb (String.eqb prefix "/") && negb (String.eqb prefix "")
         && negb (strings_HasPrefix (storage.Name entry) d)
      then ListDir_entities driver prefix d dirCache rest
      else
        let key := strings_TrimLeft (strings_TrimLeft (storage.Name entry) d) "/" in
        if String.eqb key "" then ListDir_entities driver prefix d dirCache rest
        else if strings_Contains key "/" then
          match strings_Split key "/" with
          | [] => []
          | first :: _ =>
              let key := strings_Trim first "/" in
              match dirCache !! key with
              | Some _ => ListDir_entities driver prefix d dirCache rest
              | None =>
                  {| name := key; isDir := true; Object := entry;
                     User := LoginUser (conn driver) |}
                  :: ListDir_entities driver prefix d (<[key := true]> dirCache) rest
              end
          end
        else
          {| name := key; isDir := false; Object := entry;
             User := LoginUser (conn driver) |}
          :: ListDir_entities driver prefix d dirCache rest
  end.

(** ** driver.go: GetFile and PutFile

    The two transfer operations also log through [log.Info] and fetch the
    media link over HTTP.  They are programs over the storage calls above
    and these further calls.  A stream ([io.Reader], the body of an HTTP
    response) is the text it yields. *)

(** A value handed to a logging call: a text, a number, or the storage
    service handle [driver.gcs]. *)
Inductive logged : Type :=
| as_text (s : string)
| as_number (n : Z)
| service_handle.

Record http_Response : Type := mkResponse { Body : string }.

Inductive transfer_request : Type :=
| Storage (r : request)
| log_Info (args : list logged)
| log_Infof (format : string) (args : list logged)
| httpClient_Get (url : string).

Definition transfer_response (r : transfer_request) : Type :=
  match r with
  | Storage r => response r
  | log_Info _ => unit
  | log_Infof _ _ => unit
  | httpClient_Get _ => (option http_Response * error)%type
  end.

(** A transfer operation: as [gcs], with [log.Fatal] keeping its
    arguments. *)
Inductive transfer (A : Type) : Type :=
| Done (a : A)
| Fatal_with (args : list logged)
| Panic_with (reason : string)
| Ask (r : transfer_request) (k : transfer_response r → transfer A).

Arguments Done {A} a.
Arguments Fatal_with {A} args.
Arguments Panic_with {A} reason.
Arguments Ask {A} r k.

Fixpoint transfer_bind {A B : Type} (m : transfer A) (f : A → transfer B) : transfer B :=
  match m with
  | Done a => f a
  | Fatal_with args => Fatal_with args
  | Panic_with reason => Panic_with reason
  | Ask r k => Ask r (fun x => transfer_bind (k x) f)
  end.

#[global] Instance transfer_ret : MRet transfer := @Done.
#[global] Instance transfer_mbind : MBind transfer := fun A B f m => transfer_bind m f.

Definition ask (r : transfer_request) : transfer (transfer_response r) := Ask r Done.

(** [int64(u)] of an unsigned 64-bit number. *)
Definition int64 (u : Z) : Z :=
  let u := u mod 2 ^ 64 in
  if u <? 2 ^ 63 then u else u - 2 ^ 64.

Definition newline : string := String (ascii_of_nat 10) "".

(** [driver.GetFile(objectName, offset)]: the size, the stream and the
    error. *)
Definition GetFile (driver : GoogleStorageDriver) (objectName : string) (offset : Z)
  : transfer (Z * string * error) :=
  let objectName := strings_TrimLeft objectName "/" in
  '(res, err) ← ask (Storage (Objects_Get (getUserBucket driver) objectName));
  match err with
  | None =>
      match res with
      | None => Panic_with nil_dereference
      | Some res =>
          ask (log_Infof ("The media download link for %v/%v is %v." ++ newline ++ newline)
                         [as_text (getUserBucket driver); as_text (storage.Name res);
                          as_text (storage.MediaLink res)]);;
          '(response, err) ← ask (httpClient_Get (storage.MediaLink res));
          ask (log_Info [as_number (int64 (storage.Size res))]);;
          match response with
          | None => Panic_with nil_dereference
          | Some response => Done (int64 (storage.Size res), Body response, None)
          end
      end
  | Some e =>
      Fatal_with [service_handle; as_text "Failed to get %s/%s: %s.";
                  as_text (getUserBucket driver); as_text objectName; as_text (Error e)]
  end.

(** [driver.PutFile(objectName, data, appendData)]: the byte count and the
    error. *)
Definition PutFile (driver : GoogleStorageDriver) (objectName : string) (data : string)
    (appendData : bool) : transfer (Z * error) :=
  let objectName := strings_TrimLeft objectName "/" in
  let object := {| storage.Name := objectName; storage.Size := 0; storage.Updated := "";
                   storage.MediaLink := ""; storage.SelfLink := "" |} in
  '(res, err) ← ask (Storage (Objects_Insert (getUserBucket driver) object data));
  match err with
  | None =>
      match res with
      | None => Panic_with nil_dereference
      | Some res =>
          ask (log_Info [as_text ("Created object %v at location %v" ++ newline ++ newline);
                         as_text (storage.Name res); as_text (storage.SelfLink res)]);;
          Done (0, None)
      end
  | Some e =>
      Fatal_with [service_handle; as_text "Objects.Insert failed: %v"; as_text (Error e)]
  end.

Inductive transfer_outcome (A : Type) : Type :=
| Finished (a : A)
| Exited_with (args : list logged)
| Panicked_with (reason : string).

Arguments Finished {A} a.
Arguments Exited_with {A} args.
Arguments Panicked_with {A} reason.

Definition transfer_handler (W : Type) : Type :=
  ∀ r : transfer_request, W → transfer_response r * W.

Fixpoint run_transfer {W A : Type} (h : transfer_handler W) (p : transfer A) (w : W)
  : transfer_outcome A * W :=
  match p with
  | Done a => (Finished a, w)
  | Fatal_with args => (Exited_with args, w)
  | Panic_with reason => (Panicked_with reason, w)
  | Ask r k => let '(x, w') := h r w in run_transfer h (k x) w'
  end.

(** A backend for the transfer operations: storage calls go to [h], logging
    does nothing, and an HTTP fetch answers as [fetch] says. *)
Definition with_http {W : Type} (h : handler W)
    (fetch : string → option http_Response * error) : transfer_handler W :=
  fun r w =>
    match r return transfer_response r * W with
    | Storage r => h r w
    | log_Info _ => (tt, w)
    | log_Infof _ _ => (tt, w)
    | httpClient_Get url => (fetch url, w)
    end.

(** * Properties *)

(** ** Go's string functions on sample inputs *)

Example TrimLeft_is_a_cutset :
  strings_TrimLeft "photos/shot.jpg" "photos/" = ".jpg".
Proof. reflexivity. Qed.

Example TrimLeft_slashes : strings_TrimLeft "//a/b/" "/" = "a/b/".
Proof. reflexivity. Qed.

Example Trim_both : strings_Trim "/a/b//" "/" = "a/b".
Proof. reflexivity. Qed.

Example Split_path : strings_Split "2020/b.jpg" "/" = ["2020"; "b.jpg"].
Proof. reflexivity. Qed.

Example Split_multi : strings_Split "a--b-c--" "--" = ["a"; "b-c"; ""].
Proof. reflexivity. Qed.

Example Split_empty : strings_Split "" "/" = [""].
Proof. reflexivity. Qed.

Example Replace_first : strings_Replace "d/x/d/" "d/" "e/" 1 = "e/x/d/".
Proof. reflexivity. Qed.

Example Replace_all_empty : strings_Replace "abc" "" "-" 4 = "-a-b-c-".
Proof. reflexivity. Qed.

Example Replace_overlap : strings_Replace "aaa" "aa" "b" 2 = "ba".
Proof. reflexivity. Qed.

Example HasSuffix_dir : strings_HasSuffix "photos/" "/" = true.
Proof. reflexivity. Qed.

Example Contains_mid : strings_Contains "open: no such file or directory" "no such file" = true.
Proof. reflexivity. Qed.

(** ** Running programs *)

Lemma run_bind {W A B : Type} (h : handler W) (m : gcs A) (f : A → gcs B) (w : W) :
  run h (m ≫= f) w =
  match run h m w with
  | (Returned a, w') => run h (f a) w'
  | (Exited text, w') => (Exited text, w')
  | (Panicked text, w') => (Panicked text, w')
  end.
Proof.
  revert w. induction m as [a|text|text|r k IH]; intros w; simpl; try reflexivity.
  destruct (h r w) as [x w']. apply IH.
Qed.

Lemma traced_step {W : Type} (h : handler W) (r : request) (w : W) (t : list request) :
  traced h r (w, t) = ((h r w).1, ((h r w).2, (t ++ [r])%list)).
Proof. unfold traced. destruct (h r w); reflexivity. Qed.

(** ** Stat *)

(** C8. For every path ending in "/", [Stat] returns a directory entity
    and no error, and it does so without any call at all: the operation is
    a plain return, so under every backend the world and the record of
    calls are left as they were. *)
Theorem Stat_trailing_slash (driver : GoogleStorageDriver) (key : string) :
  strings_HasSuffix key "/" = true →
  let dir := {| name := key; isDir := true; User := LoginUser (conn driver);
                Object := storage.Object_zero |} in
  Stat driver key = Ret (Some dir, None) ∧
  ∀ (W : Type) (h : handler W) (w : W) (t : list request),
    run (traced h) (Stat driver key) (w, t) = (Returned (Some dir, None), (w, t)).
Proof.
  intros Hs dir. unfold Stat. rewrite Hs. split; [reflexivity|].
  intros W h w t. reflexivity.
Qed.

Lemma Stat_trailing_slash_witness :
  Stat alice_driver "photos/" =
    Ret (Some {| name := "photos/"; isDir := true; User := "alice";
                 Object := storage.Object_zero |}, None).
Proof. exact (proj1 (Stat_trailing_slash alice_driver "photos/" eq_refl)). Defined.

(** ** DeleteDir on an empty listing *)

(** C9. When the prefix listing of [DeleteDir] comes back with zero
    objects (with no error, or with the end-of-data marker), [DeleteDir]
    returns no error, and the listing is the only call it makes: no delete
    is issued.  This holds under every backend. *)
Theorem DeleteDir_empty_listing {W : Type} (h : handler W) (w w' : W)
    (driver : GoogleStorageDriver) (key : string)
    (entries : storage.Objects) (err : error) :
  h (Objects_List (getUserBucket driver) (strings_TrimLeft key "/")) w
    = ((Some entries, err), w') →
  storage.Items entries = [] →
  err = None ∨ err = Some io_EOF →
  ∃ t, run (traced h) (DeleteDir driver key) (w, []) = (Returned None, (w', t)) ∧
       t = [Objects_List (getUserBucket driver) (strings_TrimLeft key "/")] ∧
       forallb (fun r => negb (is_delete_call r)) t = true.
Proof.
  intros Hl Hi He. eexists. split; [|split; reflexivity].
  unfold DeleteDir. simpl. rewrite Hl. simpl.
  rewrite Hi. destruct He as [-> | ->]; reflexivity.
Qed.

Lemma DeleteDir_empty_listing_witness :
  ∃ t, run (traced (memory "not found")) (DeleteDir alice_driver "/gone") (world_of [], [])
         = (Returned None, (world_of [], t)) ∧
       t = [Objects_List "bkt" "gone"] ∧
       forallb (fun r => negb (is_delete_call r)) t = true.
Proof.
  exact (DeleteDir_empty_listing (memory "not found") (world_of []) (world_of [])
           alice_driver "/gone" {| storage.Items := [] |} None
           eq_refl eq_refl (or_introl eq_refl)).
Defined.

(** ** Rename of a single object *)

(** C3. In the single-file branch of [Rename] (the lookup of the source
    reports no error), whatever the copy answers, an error included, the
    delete of the source key is the next call, and what [Rename] returns is
    the delete's answer alone.  Under every backend the calls made are:
    the print, the lookup, the copy, the delete. *)
Theorem Rename_file_ignores_copy_error {W : Type} (h : handler W)
    (w w0 w1 w2 w3 : W) (driver : GoogleStorageDriver) (keySrc keyDest : string)
    (entry copied : option storage.Object) (copyErr deleteErr : error) :
  let b := getUserBucket driver in
  let from := strings_TrimLeft keySrc "/" in
  let to := strings_TrimLeft keyDest "/" in
  h (fmt_Println ["rename from"; keySrc; keyDest]) w = (tt, w0) →
  h (Objects_Get b from) w0 = ((entry, None), w1) →
  h (Objects_Copy b from b to) w1 = ((copied, copyErr), w2) →
  h (Objects_Delete b from) w2 = (deleteErr, w3) →
  run (traced h) (Rename driver keySrc keyDest) (w, []) =
    (Returned deleteErr,
     (w3, [fmt_Println ["rename from"; keySrc; keyDest];
           Objects_Get b from; Objects_Copy b from b to; Objects_Delete b from])).
Proof.
  intros b from to Hp Hg Hc Hd. unfold Rename. simpl.
  rewrite Hp. simpl. fold b from. rewrite Hg. simpl.
  fold to. rewrite Hc. simpl. rewrite Hd. reflexivity.
Qed.

(** A failed copy followed by a successful delete: [Rename] reports
    success and the object is gone. *)
Lemma Rename_file_ignores_copy_error_witness :
  run (traced (memory_copy_fails "not found")) (Rename alice_driver "/a" "/b")
      (world_of [obj "a" 3 ""], []) =
    (Returned None,
     (world_of [],
      [fmt_Println ["rename from"; "/a"; "/b"];
       Objects_Get "bkt" "a"; Objects_Copy "bkt" "a" "bkt" "b"; Objects_Delete "bkt" "a"])).
Proof.
  exact (Rename_file_ignores_copy_error (memory_copy_fails "not found")
           (world_of [obj "a" 3 ""]) (world_of [obj "a" 3 ""]) (world_of [obj "a" 3 ""])
           (world_of [obj "a" 3 ""]) (world_of []) alice_driver "/a" "/b"
           (Some (obj "a" 3 "")) None (Some (errors_New "copy failed")) None
           eq_refl eq_refl eq_refl eq_refl).
Defined.

(** ** The modification time *)

(** C10. The modification-time accessor always returns a time, under
    every backend and clock: when the object's [Updated] text parses as
    RFC 3339 the result is the parsed time (and nothing is logged or asked
    of the clock); when it does not parse, the failure is logged and the
    result is the current time. *)
Theorem ModTime_never_fails (time_Parse : string → string → Time + error_value)
    {W : Type} (h : handler W) (w : W) (f : FileInfo) :
  (∀ parsed, time_Parse time_RFC3339 (storage.Updated (Object f)) = inl parsed →
     run (traced h) (ModTime time_Parse f) (w, []) = (Returned parsed, (w, []))) ∧
  (∀ e, time_Parse time_RFC3339 (storage.Updated (Object f)) = inr e →
     let logged := log_Error ("Could not parse time for string " ++ storage.Updated (Object f)) in
     let w1 := (h logged w).2 in
     run (traced h) (ModTime time_Parse f) (w, [])
       = (Returned (h time_Now w1).1, ((h time_Now w1).2, [logged; time_Now]))) ∧
  (∃ t w', run (traced h) (ModTime time_Parse f) (w, []) = (Returned t, w')).
Proof.
  unfold ModTime.
  destruct (time_Parse time_RFC3339 (storage.Updated (Object f))) as [parsed|e] eqn:Hp.
  - split; [|split].
    + intros ? [= <-]. reflexivity.
    + intros ? [=].
    + eexists _, _. reflexivity.
  - assert (Hrun : let logged := log_Error ("Could not parse time for string " ++ storage.Updated (Object f)) in
                   let w1 := (h logged w).2 in
                   run (traced h)
                       (call logged;; now ← call time_Now; Ret now) (w, [])
                   = (Returned (h time_Now w1).1, ((h time_Now w1).2, [logged; time_Now]))).
    { simpl. destruct (h (log_Error _) w) as [[] w1]. simpl.
      destruct (h time_Now w1) as [now w2]. reflexivity. }
    split; [|split].
    + intros ? [=].
    + intros ? _. exact Hrun.
    + eexists _, _. exact Hrun.
Qed.

Lemma ModTime_never_fails_witness :
  let f := {| name := "a.jpg"; isDir := false; User := "alice";
              Object := obj "a.jpg" 3 "1970-01-02T00:00:01Z" |} in
  let g := {| name := "b.jpg"; isDir := false; User := "alice";
              Object := obj "b.jpg" 3 "yesterday" |} in
  run (traced (memory "not found")) (ModTime sample_Parse f) (world_of [], [])
    = (Returned 86401, (world_of [], [])) ∧
  run (traced (memory "not found")) (ModTime sample_Parse g) (world_of [], [])
    = (Returned 42, (world_of [],
         [log_Error "Could not parse time for string yesterday"; time_Now])).
Proof.
  intros f g. split.
  - exact (proj1 (ModTime_never_fails sample_Parse (memory "not found") (world_of []) f)
             86401 eq_refl).
  - exact (proj1 (proj2 (ModTime_never_fails sample_Parse (memory "not found") (world_of []) g))
             (errors_New "parsing time yesterday as 2006-01-02T15:04:05Z07:00") eq_refl).
Defined.

(** ** Prefixes and the listing of the reference backend *)

Lemma HasPrefix_app (p r : string) : strings_HasPrefix (p ++ r) p = true.
Proof. induction p as [|c p IH]; simpl; [reflexivity|]. rewrite Ascii.eqb_refl. exact IH. Qed.

Lemma HasPrefix_spec (s p : string) :
  strings_HasPrefix s p = true ↔ ∃ r, s = p ++ r.
Proof.
  split.
  - revert s. induction p as [|c p IH]; intros s H; simpl in *.
    + exists s. reflexivity.
    + destruct s as [|c' s]; [discriminate|].
      destruct (Ascii.eqb_spec c' c) as [->|]; [|discriminate].
      destruct (IH _ H) as [r ->]. exists r. reflexivity.
  - intros [r ->]. apply HasPrefix_app.
Qed.

Lemma Name_named (k : string) (o : storage.Object) : storage.Name (named k o) = k.
Proof. reflexivity. Qed.

Lemma elem_of_listing (m : gmap (string * string) storage.Object) (b p : string)
    (o' : storage.Object) :
  o' ∈ listing m b p ↔
  ∃ k o, m !! (b, k) = Some o ∧ strings_HasPrefix k p = true ∧ o' = named k o.
Proof.
  unfold listing. rewrite list_elem_of_omap. split.
  - intros [[[b' k] o] [Hin Hf]]. apply elem_of_map_to_list in Hin.
    destruct (String.eqb_spec b' b) as [->|]; simpl in Hf; [|discriminate].
    destruct (strings_HasPrefix k p) eqn:Hp; [|discriminate].
    injection Hf as <-. eauto.
  - intros (k & o & Hm & Hp & ->). exists ((b, k), o). split.
    + apply elem_of_map_to_list. exact Hm.
    + rewrite String.eqb_refl, Hp. reflexivity.
Qed.

Lemma listing_nil (m : gmap (string * string) storage.Object) (b p : string) :
  listing m b p = [] ↔
  ∀ k o, m !! (b, k) = Some o → strings_HasPrefix k p = false.
Proof.
  split.
  - intros Hnil k o Hm. destruct (strings_HasPrefix k p) eqn:Hp; [|reflexivity].
    assert (Hin : named k o ∈ listing m b p) by (apply elem_of_listing; eauto).
    rewrite Hnil in Hin. inversion Hin.
  - intros Hall. destruct (listing m b p) as [|o' l] eqn:Hl; [reflexivity|].
    assert (Hin : o' ∈ listing m b p) by (rewrite Hl; left).
    apply elem_of_listing in Hin as (k & o & Hm & Hp & _).
    rewrite (Hall _ _ Hm) in Hp. discriminate.
Qed.

Lemma NoDup_listing (m : gmap (string * string) storage.Object) (b p : string) :
  NoDup (storage.Name <$> listing m b p).
Proof.
  unfold listing. pose proof (NoDup_fst_map_to_list m) as Hnd.
  induction (map_to_list m) as [|[[b' k] o] l IH]; simpl; [constructor|].
  inversion Hnd as [|? ? Hnotin Hnd']; subst.
  destruct (String.eqb_spec b' b) as [->|]; simpl; [|auto].
  destruct (strings_HasPrefix k p); simpl; [|auto].
  constructor; [|auto].
  intros Hin. apply Hnotin.
  apply list_elem_of_fmap in Hin as (o' & Hk & Hin).
  apply list_elem_of_omap in Hin as ([[b'' k''] o''] & Hin & Hf).
  destruct (String.eqb_spec b'' b) as [->|]; simpl in Hf; [|discriminate].
  destruct (strings_HasPrefix k'' p); [|discriminate].
  injection Hf as <-. simpl in Hk. subst k''.
  apply list_elem_of_fmap. exists ((b, k), o''). split; [reflexivity|exact Hin].
Qed.

(** ** Stat of a key with no object of its own *)

(** C5. Take a path not ending in "/" and let [K] be its key (the path
    without leading separators; [K] itself when it has none), with no
    object stored at [K].  On the reference backend, if some object has a
    key beginning with [K] then [Stat] returns a directory entity and no
    error; if no object has such a key, [Stat] fails with the not-found
    error of the driver.  The backend is left as it was. *)
Theorem Stat_infers_directory (notfound : string) (w : World)
    (driver : GoogleStorageDriver) (key : string) :
  let b := getUserBucket driver in
  let K := strings_TrimLeft key "/" in
  strings_HasSuffix key "/" = false →
  objects w !! (b, K) = None →
  ((∃ k o, objects w !! (b, k) = Some o ∧ strings_HasPrefix k K = true) →
   run (memory notfound) (Stat driver key) w =
     (Returned (Some {| name := key; isDir := true; User := LoginUser (conn driver);
                        Object := storage.Object_zero |}, None), w)) ∧
  ((∀ k o, objects w !! (b, k) = Some o → strings_HasPrefix k K = false) →
   run (memory notfound) (Stat driver key) w =
     (Returned (None, Some (errors_New "This directory does not exist")), w)).
Proof.
  intros b K Hs Hnone. unfold Stat. rewrite Hs. simpl. fold b K. rewrite Hnone. simpl.
  split.
  - intros (k & o & Hm & Hp).
    destruct (listing (objects w) b K) as [|o' l] eqn:Hl; [|reflexivity].
    rewrite listing_nil in Hl. rewrite (Hl _ _ Hm) in Hp. discriminate.
  - intros Hall. apply listing_nil in Hall. rewrite Hall. reflexivity.
Qed.

Lemma Stat_infers_directory_witness :
  run (memory "not found") (Stat alice_driver "/photos")
      (world_of [obj "photos/a.jpg" 3 ""]) =
    (Returned (Some {| name := "/photos"; isDir := true; User := "alice";
                       Object := storage.Object_zero |}, None),
     world_of [obj "photos/a.jpg" 3 ""]) ∧
  run (memory "not found") (Stat alice_driver "/music")
      (world_of [obj "photos/a.jpg" 3 ""]) =
    (Returned (None, Some (errors_New "This directory does not exist")),
     world_of [obj "photos/a.jpg" 3 ""]).
Proof.
  split.
  - apply (Stat_infers_directory "not found" (world_of [obj "photos/a.jpg" 3 ""])
             alice_driver "/photos" eq_refl eq_refl).
    exists "photos/a.jpg", (obj "photos/a.jpg" 3 ""). split; reflexivity.
  - apply (Stat_infers_directory "not found" (world_of [obj "photos/a.jpg" 3 ""])
             alice_driver "/music" eq_refl eq_refl).
    intros k o Hm. simpl in Hm.
    destruct (decide (("bkt", k) = ("bkt", "photos/a.jpg"))) as [[= ->]|Hne].
    + reflexivity.
    + unfold world_of in Hm. simpl in Hm.
      rewrite lookup_insert_ne in Hm by congruence. rewrite lookup_empty in Hm. discriminate.
Defined.

(** ** DeleteDir on the reference backend *)

Lemma delete_all_lookup (b : string) (l : list storage.Object)
    (m : gmap (string * string) storage.Object) (b' k : string) :
  delete_all b l m !! (b', k) =
  if bool_decide (b' = b ∧ k ∈ storage.Name <$> l) then None else m !! (b', k).
Proof.
  unfold delete_all. revert m. induction l as [|o l IH]; intros m; simpl.
  - rewrite bool_decide_eq_false_2; [reflexivity|]. intros [_ H]. inversion H.
  - rewrite IH. destruct (decide (b' = b ∧ k ∈ storage.Name <$> l)) as [Hin|Hnin].
    + rewrite !bool_decide_eq_true_2; [reflexivity| |exact Hin].
      destruct Hin. split; [assumption|]. right. assumption.
    + rewrite (bool_decide_eq_false_2 _ Hnin).
      destruct (decide ((b, storage.Name o) = (b', k))) as [[= <- <-]|Hne].
      * rewrite lookup_delete_eq. rewrite bool_decide_eq_true_2; [reflexivity|].
        split; [reflexivity|left].
      * rewrite lookup_delete_ne by exact Hne.
        rewrite bool_decide_eq_false_2; [reflexivity|].
        intros [-> Hin]. apply Hnin. split; [reflexivity|].
        inversion Hin; subst; [congruence|assumption].
Qed.

Lemma with_objects_same (w : World) : with_objects w (objects w) = w.
Proof. destruct w; reflexivity. Qed.

Lemma DeleteDir_range_memory (notfound : string) (driver : GoogleStorageDriver)
    (l : list storage.Object) (w : World) :
  NoDup (storage.Name <$> l) →
  (∀ o, o ∈ l → is_Some (objects w !! (getUserBucket driver, storage.Name o))) →
  run (memory notfound) (DeleteDir_range driver l) w =
    (Returned None, with_objects w (delete_all (getUserBucket driver) l (objects w))).
Proof.
  revert w. induction l as [|o l IH]; intros w Hnd Hin; simpl.
  - rewrite with_objects_same. reflexivity.
  - inversion Hnd as [|? ? Hnotin Hnd']; subst.
    destruct (Hin o) as [x Hx]; [left|]. rewrite Hx. simpl.
    rewrite IH; [reflexivity|exact Hnd'|].
    intros o' Ho'. simpl. rewrite lookup_delete_ne.
    + apply Hin. right. exact Ho'.
    + intros [= Heq]. apply Hnotin. rewrite Heq.
      apply list_elem_of_fmap. eauto.
Qed.

(** C4. [DeleteDir(path)] on the reference backend returns no error and
    leaves the store where every object of the user's bucket whose key
    begins with the path, leading "/" stripped and nothing appended, is
    gone, and every other object is as before: the objects removed are
    exactly those with that textual prefix. *)
Theorem DeleteDir_textual_prefix (notfound : string) (w : World)
    (driver : GoogleStorageDriver) (key : string) :
  let b := getUserBucket driver in
  let d := strings_TrimLeft key "/" in
  ∃ w', run (memory notfound) (DeleteDir driver key) w = (Returned None, w') ∧
        visited w' = visited w ∧ clock w' = clock w ∧
        ∀ b' k, objects w' !! (b', k) =
                if bool_decide (b' = b) && strings_HasPrefix k d then None
                else objects w !! (b', k).
Proof.
  intros b d.
  exists (with_objects w (delete_all b (listing (objects w) b d) (objects w))).
  split; [|split; [reflexivity|split; [reflexivity|]]].
  - unfold DeleteDir. simpl. fold b d.
    destruct (listing (objects w) b d) as [|o l] eqn:Hl.
    + simpl. rewrite with_objects_same. reflexivity.
    + rewrite <- Hl. replace (List.length (listing (objects w) b d) =? 0)%nat with false
        by (rewrite Hl; reflexivity).
      apply DeleteDir_range_memory; [apply NoDup_listing|].
      intros o' Ho'. apply elem_of_listing in Ho' as (k & o'' & Hm & _ & ->).
      rewrite Name_named. eauto.
  - intros b' k. simpl. rewrite delete_all_lookup.
    destruct (decide (b' = b)) as [->|Hb].
    + rewrite (bool_decide_eq_true_2 (b = b)) by reflexivity. simpl.
      destruct (strings_HasPrefix k d) eqn:Hp.
      * destruct (objects w !! (b, k)) as [o|] eqn:Hm.
        -- rewrite bool_decide_eq_true_2; [reflexivity|]. split; [reflexivity|].
           apply list_elem_of_fmap. exists (named k o). split; [reflexivity|].
           apply elem_of_listing. eauto.
        -- destruct (bool_decide _); reflexivity.
      * rewrite bool_decide_eq_false_2; [reflexivity|]. intros [_ Hin].
        apply list_elem_of_fmap in Hin as (o' & -> & Ho').
        apply elem_of_listing in Ho' as (k' & o'' & _ & Hp' & ->).
        rewrite Name_named in Hp. congruence.
    + rewrite (bool_decide_eq_false_2 (b' = b)) by exact Hb. simpl.
      rewrite bool_decide_eq_false_2; [reflexivity|]. intros [? _]. contradiction.
Qed.

(** Deleting "/foo" also removes the object "foobar", and leaves "bar". *)
Lemma DeleteDir_textual_prefix_witness :
  ∃ w', run (memory "not found") (DeleteDir alice_driver "/foo")
            (world_of [obj "foo/a" 1 ""; obj "foobar" 2 ""; obj "bar" 3 ""])
          = (Returned None, w') ∧
        objects w' !! ("bkt", "foo/a") = None ∧
        objects w' !! ("bkt", "foobar") = None ∧
        objects w' !! ("bkt", "bar") = Some (obj "bar" 3 "").
Proof.
  destruct (DeleteDir_textual_prefix "not found"
              (world_of [obj "foo/a" 1 ""; obj "foobar" 2 ""; obj "bar" 3 ""])
              alice_driver "/foo") as (w' & Hrun & _ & _ & Hl).
  exists w'. split; [exact Hrun|].
  split; [|split]; rewrite Hl; reflexivity.
Defined.

Example DeleteDir_foo_foobar :
  (run (memory "not found") (DeleteDir alice_driver "/foo")
       (world_of [obj "foo/a" 1 ""; obj "foobar" 2 ""; obj "bar" 3 ""])).2
  = world_of [obj "bar" 3 ""].
Proof. vm_compute. reflexivity. Qed.

(** ** Rename of a directory on the reference backend *)

Lemma replace_from_done (r old new : string) : replace_from r old new 0 0 = r.
Proof. induction r as [|c r IH]; simpl; [reflexivity|]. rewrite IH. reflexivity. Qed.

Lemma replace_from_skip (x r old new : string) :
  replace_from (x ++ r) old new 0 (String.length x) = r.
Proof. induction x as [|c x IH]; simpl; [apply replace_from_done|exact IH]. Qed.

Lemma Replace_prefix (from to r : string) :
  from ≠ "" → strings_Replace (from ++ r) from to 1 = to ++ r.
Proof.
  intros Hne. unfold strings_Replace.
  destruct (String.eqb_spec from to) as [->|_]; [reflexivity|].
  destruct from as [|c from]; [congruence|].
  change (String c from ++ r) with (String c (from ++ r)).
  cbn [replace_from].
  change (String c (from ++ r)) with (String c from ++ r).
  rewrite HasPrefix_app. cbn [String.length].
  rewrite replace_from_skip. reflexivity.
Qed.

Lemma append_inj_r (p r r' : string) : p ++ r = p ++ r' → r = r'.
Proof. induction p as [|c p IH]; simpl; [auto|]. intros [= H]. auto. Qed.

Lemma append_comparable (p q r r' : string) :
  p ++ r = q ++ r' → strings_HasPrefix p q = true ∨ strings_HasPrefix q p = true.
Proof.
  revert q. induction p as [|c p IH]; intros q H.
  - right. destruct q; reflexivity.
  - destruct q as [|c' q]; [left; reflexivity|].
    simpl in H. injection H as -> H. simpl. rewrite Ascii.eqb_refl. apply IH. exact H.
Qed.

Section RenameRange.

Variables (b from to : string).

Let dest (k : string) : string := strings_Replace k from to 1.

Lemma movable_cons (o : storage.Object) (l : list storage.Object) :
  movable from to (o :: l) →
  movable from to l ∧ (storage.Name o ∉ (storage.Name <$> l)) ∧
  dest (storage.Name o) ≠ storage.Name o ∧
  (∀ o', o' ∈ l → dest (storage.Name o) ≠ storage.Name o'
                  ∧ dest (storage.Name o') ≠ storage.Name o
                  ∧ dest (storage.Name o') ≠ dest (storage.Name o)).
Proof.
  intros (Hnd & Hds & Hinj). inversion Hnd as [|? ? Hnotin Hnd']; subst.
  split; [|split; [exact Hnotin|split]].
  - split; [exact Hnd'|split].
    + intros o1 o2 H1 H2. apply Hds; right; assumption.
    + intros o1 o2 H1 H2. apply Hinj; right; assumption.
  - apply Hds; left.
  - intros o' Ho'. split; [|split].
    + apply Hds; [left|right; exact Ho'].
    + apply Hds; [right; exact Ho'|left].
    + intros Heq. apply Hnotin. apply list_elem_of_fmap. exists o'. split; [|exact Ho'].
      symmetry. apply Hinj; [right; exact Ho'|left|exact Heq].
Qed.

Lemma rename_all_other (l : list storage.Object)
    (m : gmap (string * string) storage.Object) (key : string * string) :
  (∀ o, o ∈ l → key ≠ (b, storage.Name o) ∧ key ≠ (b, dest (storage.Name o))) →
  foldl (rename_step b from to) m l !! key = m !! key.
Proof.
  revert m. induction l as [|o l IH]; intros m Hk; simpl; [reflexivity|].
  rewrite IH by (intros o' Ho'; apply Hk; right; exact Ho').
  destruct (Hk o) as [Hs Hd]; [left|].
  unfold rename_step. destruct (m !! (b, storage.Name o)); [|reflexivity].
  rewrite lookup_delete_ne by congruence.
  rewrite lookup_insert_ne by (fold (dest (storage.Name o)); congruence).
  reflexivity.
Qed.

Lemma rename_all_source (l : list storage.Object)
    (m : gmap (string * string) storage.Object) (o : storage.Object) :
  movable from to l → o ∈ l →
  foldl (rename_step b from to) m l !! (b, storage.Name o) = None.
Proof.
  revert m. induction l as [|o1 l IH]; intros m Hmv Hin; [inversion Hin|].
  apply movable_cons in Hmv as (Hmv & Hnotin & Hself & Hrest). simpl.
  destruct (decide (storage.Name o = storage.Name o1)) as [Heq|Hne].
  - rewrite Heq. rewrite rename_all_other.
    + unfold rename_step. destruct (m !! (b, storage.Name o1)) eqn:Hm; [|exact Hm].
      apply lookup_delete_eq.
    + intros o' Ho'. destruct (Hrest o' Ho') as (_ & H2 & _). split.
      * intros [= Hk]. apply Hnotin. rewrite Hk. apply list_elem_of_fmap. eauto.
      * intros [= Hk]. apply H2. symmetry. exact Hk.
  - apply IH; [exact Hmv|]. inversion Hin; subst; [congruence|assumption].
Qed.

Lemma rename_all_dest (l : list storage.Object)
    (m : gmap (string * string) storage.Object) (o x : storage.Object) :
  movable from to l → o ∈ l → m !! (b, storage.Name o) = Some x →
  foldl (rename_step b from to) m l !! (b, dest (storage.Name o))
    = Some (named (dest (storage.Name o)) x).
Proof.
  revert m. induction l as [|o1 l IH]; intros m Hmv Hin Hm; [inversion Hin|].
  pose proof Hmv as (_ & _ & Hinj).
  apply movable_cons in Hmv as (Hmv & Hnotin & Hself & Hrest). simpl.
  destruct (decide (storage.Name o = storage.Name o1)) as [Heq|Hne].
  - rewrite Heq in *. rewrite rename_all_other.
    + unfold rename_step. rewrite Hm.
      rewrite lookup_delete_ne by (intros [= Hk]; apply Hself; symmetry; exact Hk).
      apply lookup_insert_eq.
    + intros o' Ho'. destruct (Hrest o' Ho') as (H1 & _ & H3). split.
      * intros [= Hk]. apply H1. exact Hk.
      * intros [= Hk]. apply H3. symmetry. exact Hk.
  - assert (Hin' : o ∈ l) by (inversion Hin; subst; [congruence|assumption]).
    apply IH; [exact Hmv|exact Hin'|].
    destruct (Hrest o Hin') as (H1 & _ & _).
    unfold rename_step. destruct (m !! (b, storage.Name o1)); [|exact Hm].
    rewrite lookup_delete_ne by congruence.
    rewrite lookup_insert_ne by (intros [= Hk]; apply H1; exact Hk).
    exact Hm.
Qed.

End RenameRange.

Lemma Rename_range_memory (notfound : string) (driver : GoogleStorageDriver)
    (from to : string) (l : list storage.Object) (w : World) :
  movable from to l →
  (∀ o, o ∈ l → is_Some (objects w !! (getUserBucket driver, storage.Name o))) →
  run (memory notfound) (Rename_range driver from to l) w =
    (Returned None,
     with_objects w (foldl (rename_step (getUserBucket driver) from to) (objects w) l)).
Proof.
  revert w. induction l as [|o l IH]; intros w Hmv Hin; simpl.
  - rewrite with_objects_same. reflexivity.
  - apply movable_cons in Hmv as (Hmv & Hnotin & Hself & Hrest).
    destruct (Hin o) as [x Hx]; [left|].
    unfold rename_step at 2. rewrite Hx. simpl.
    rewrite lookup_insert_ne by (intros [= Hk]; apply Hself; exact Hk).
    rewrite Hx. simpl. rewrite IH; [reflexivity|exact Hmv|].
    intros o' Ho'. simpl. destruct (Hrest o' Ho') as (H1 & _ & _).
    rewrite lookup_delete_ne.
    + rewrite lookup_insert_ne by (intros [= Hk]; apply H1; exact Hk).
      apply Hin. right. exact Ho'.
    + intros [= Hk]. apply Hnotin. rewrite Hk. apply list_elem_of_fmap. eauto.
Qed.

Lemma movable_listing (m : gmap (string * string) storage.Object) (b from to : string) :
  from ≠ "" →
  strings_HasPrefix from to = false → strings_HasPrefix to from = false →
  movable from to (listing m b from).
Proof.
  intros Hne Hft Htf.
  assert (Hdest : ∀ o, o ∈ listing m b from →
            ∃ r, storage.Name o = from ++ r ∧
                 strings_Replace (storage.Name o) from to 1 = to ++ r).
  { intros o Ho. apply elem_of_listing in Ho as (k & x & _ & Hp & ->).
    apply HasPrefix_spec in Hp as [r ->]. exists r. rewrite Name_named.
    split; [reflexivity|]. apply Replace_prefix. exact Hne. }
  split; [apply NoDup_listing|split].
  - intros o o' Ho Ho' Heq.
    destruct (Hdest o Ho) as (r & _ & Hd). destruct (Hdest o' Ho') as (r' & Hs & _).
    rewrite Hd, Hs in Heq. apply append_comparable in Heq as [H|H]; congruence.
  - intros o o' Ho Ho' Heq.
    destruct (Hdest o Ho) as (r & Hs & Hd). destruct (Hdest o' Ho') as (r' & Hs' & Hd').
    rewrite Hd, Hd' in Heq. apply append_inj_r in Heq. congruence.
Qed.

(** [Rename] of a directory on the reference backend, when the source has
    no object of its own, its directory key has one, and neither directory
    key is a prefix of the other: every object under the source prefix is
    gone, each has its copy under the destination prefix, and all other
    objects are untouched. *)
Lemma Rename_directory_memory (notfound : string) (w : World)
    (driver : GoogleStorageDriver) (keySrc keyDest : string) :
  let b := getUserBucket driver in
  let from := strings_TrimLeft keySrc "/" ++ "/" in
  let to := strings_TrimLeft keyDest "/" ++ "/" in
  strings_Contains notfound no_such_file = true →
  objects w !! (b, strings_TrimLeft keySrc "/") = None →
  is_Some (objects w !! (b, from)) →
  strings_HasPrefix from to = false → strings_HasPrefix to from = false →
  ∃ w', run (memory notfound) (Rename driver keySrc keyDest) w = (Returned None, w') ∧
        visited w' = visited w ∧ clock w' = clock w ∧
        (∀ r, objects w' !! (b, from ++ r) = None) ∧
        (∀ r x, objects w !! (b, from ++ r) = Some x →
                objects w' !! (b, to ++ r) = Some (named (to ++ r) x)) ∧
        (∀ b' k, (b' = b → strings_HasPrefix k from = false ∧ strings_HasPrefix k to = false) →
                 objects w' !! (b', k) = objects w !! (b', k)).
Proof.
  intros b from to Hnf Hnone [x0 Hdir] Hft Htf.
  assert (Hne : from ≠ "").
  { unfold from. destruct (strings_TrimLeft keySrc "/"); discriminate. }
  pose proof (movable_listing (objects w) b from to Hne Hft Htf) as Hmv.
  exists (with_objects w (foldl (rename_step b from to) (objects w) (listing (objects w) b from))).
  split; [|split; [reflexivity|split; [reflexivity|split; [|split]]]].
  - unfold Rename. simpl. fold b. rewrite Hnone. simpl. rewrite Hnf.
    simpl. fold b from to. rewrite Hdir. simpl.
    apply Rename_range_memory; [exact Hmv|].
    intros o Ho. apply elem_of_listing in Ho as (k & x & Hm & _ & ->).
    rewrite Name_named. eauto.
  - intros r. simpl. destruct (objects w !! (b, from ++ r)) as [x|] eqn:Hm.
    + assert (Hin : named (from ++ r) x ∈ listing (objects w) b from).
      { apply elem_of_listing. exists (from ++ r), x. rewrite HasPrefix_app. auto. }
      apply (rename_all_source b from to _ (objects w) _ Hmv Hin).
    + rewrite rename_all_other; [exact Hm|].
      intros o Ho. apply elem_of_listing in Ho as (k & x & Hk & Hp & ->).
      rewrite Name_named. apply HasPrefix_spec in Hp as [r' ->].
      rewrite Replace_prefix by exact Hne. split.
      * intros [= Heq]. apply append_inj_r in Heq. subst. congruence.
      * intros [= Heq]. apply append_comparable in Heq as [H|H]; congruence.
  - intros r x Hm. simpl.
    assert (Hin : named (from ++ r) x ∈ listing (objects w) b from).
    { apply elem_of_listing. exists (from ++ r), x. rewrite HasPrefix_app. auto. }
    pose proof (rename_all_dest b from to _ (objects w) _ x Hmv Hin Hm) as H.
    rewrite Name_named, Replace_prefix in H by exact Hne. exact H.
  - intros b' k Hk. simpl. apply rename_all_other.
    intros o Ho. apply elem_of_listing in Ho as (k' & x & _ & Hp & ->).
    rewrite Name_named. pose proof Hp as Hp'. apply HasPrefix_spec in Hp' as [r ->].
    rewrite Replace_prefix by exact Hne. split.
    + intros [= -> ->]. destruct (Hk eq_refl) as [H _]. congruence.
    + intros [= -> ->]. destruct (Hk eq_refl) as [_ H]. rewrite HasPrefix_app in H. discriminate.
Qed.

(** ** Rename of directory d to e *)

(** C6. On the reference backend, whose missing-object error carries
    the words "no such file or directory": with no object at key "d", an
    object at the directory key "d/" and objects "d/x" and "d/y",
    [Rename("d", "e")] returns no error and leaves "e/x" and "e/y" present,
    holding what "d/x" and "d/y" held, and "d/x" and "d/y" absent.  Every
    copy and delete of the run succeeds. *)
Theorem Rename_directory_d_e (notfound : string) (w : World)
    (driver : GoogleStorageDriver) (od ox oy : storage.Object) :
  let b := getUserBucket driver in
  strings_Contains notfound no_such_file = true →
  objects w !! (b, "d") = None →
  objects w !! (b, "d/") = Some od →
  objects w !! (b, "d/x") = Some ox →
  objects w !! (b, "d/y") = Some oy →
  ∃ w', run (memory notfound) (Rename driver "d" "e") w = (Returned None, w') ∧
        objects w' !! (b, "e/x") = Some (named "e/x" ox) ∧
        objects w' !! (b, "e/y") = Some (named "e/y" oy) ∧
        objects w' !! (b, "d/x") = None ∧
        objects w' !! (b, "d/y") = None.
Proof.
  intros b Hnf Hd Hdir Hx Hy.
  destruct (Rename_directory_memory notfound w driver "d" "e" Hnf Hd
              (ex_intro _ od Hdir) eq_refl eq_refl)
    as (w' & Hrun & _ & _ & Hgone & Hmoved & _).
  exists w'. split; [exact Hrun|]. split; [|split; [|split]].
  - exact (Hmoved "x" ox Hx).
  - exact (Hmoved "y" oy Hy).
  - exact (Hgone "x").
  - exact (Hgone "y").
Qed.

Lemma Rename_directory_d_e_witness :
  ∃ w', run (memory "open d: no such file or directory") (Rename alice_driver "d" "e")
            (world_of [obj "d/" 0 ""; obj "d/x" 5 ""; obj "d/y" 7 ""]) = (Returned None, w') ∧
        objects w' !! ("bkt", "e/x") = Some (obj "e/x" 5 "") ∧
        objects w' !! ("bkt", "e/y") = Some (obj "e/y" 7 "") ∧
        objects w' !! ("bkt", "d/x") = None ∧
        objects w' !! ("bkt", "d/y") = None.
Proof.
  exact (Rename_directory_d_e "open d: no such file or directory"
           (world_of [obj "d/" 0 ""; obj "d/x" 5 ""; obj "d/y" 7 ""]) alice_driver
           (obj "d/" 0 "") (obj "d/x" 5 "") (obj "d/y" 7 "")
           eq_refl eq_refl eq_refl eq_refl eq_refl).
Defined.

(** ** ListDir *)

Lemma directory_names_app (t t' : list request) :
  directory_names (t ++ t')%list = (directory_names t ++ directory_names t')%list.
Proof. apply omap_app. Qed.

Lemma ListDir_range_no_duplicates {W : Type} (h : handler W)
    (driver : GoogleStorageDriver) (prefix d : string) (items : list storage.Object) :
  ∀ (dirCache : gmap string bool) (w : W) (t : list request),
    NoDup (directory_names t) →
    (∀ n, n ∈ directory_names t → is_Some (dirCache !! n)) →
    NoDup (directory_names
             (run (traced h) (ListDir_range driver prefix d visitor dirCache items) (w, t)).2.2).
Proof.
  induction items as [|entry rest IH]; intros dirCache w t Hnd Hin; simpl; [exact Hnd|].
  destruct (negb (String.eqb prefix "/") && negb (String.eqb prefix "")
            && negb (strings_HasPrefix (storage.Name entry) d)); [apply IH; assumption|].
  set (key := strings_TrimLeft (strings_TrimLeft (storage.Name entry) d) "/").
  destruct (String.eqb key ""); [apply IH; assumption|].
  destruct (strings_Contains key "/").
  - destruct (split_from key "/" 0 "") as [|first ?]; [exact Hnd|].
    destruct (dirCache !! strings_Trim first "/") eqn:Hc; [apply IH; assumption|].
    simpl. destruct (h (Visit _) w) as [[e|] w1]; simpl.
    + rewrite directory_names_app. simpl. apply NoDup_app. split; [exact Hnd|split].
      * intros n Hn Hn'. apply list_elem_of_singleton in Hn'. subst n.
        destruct (Hin _ Hn) as [? Hsome]. congruence.
      * apply NoDup_singleton.
    + apply IH.
      * rewrite directory_names_app. simpl. apply NoDup_app. split; [exact Hnd|split].
        -- intros n Hn Hn'. apply list_elem_of_singleton in Hn'. subst n.
           destruct (Hin _ Hn) as [? Hsome]. congruence.
        -- apply NoDup_singleton.
      * intros n Hn. rewrite directory_names_app in Hn. simpl in Hn.
        apply elem_of_app in Hn as [Hn|Hn].
        -- destruct (decide (strings_Trim first "/" = n)) as [<-|Hne].
           ++ rewrite lookup_insert_eq. eauto.
           ++ rewrite lookup_insert_ne by exact Hne. apply Hin. exact Hn.
        -- apply list_elem_of_singleton in Hn. subst n. rewrite lookup_insert_eq. eauto.
  - simpl. destruct (h (Visit _) w) as [[e|] w1]; simpl.
    + rewrite directory_names_app, app_nil_r. exact Hnd.
    + apply IH; rewrite directory_names_app, app_nil_r; assumption.
Qed.

(** Under every backend, one [ListDir] call never hands the callback two
    directory entities of the same name. *)
Lemma ListDir_no_duplicate_directories {W : Type} (h : handler W) (w : W)
    (driver : GoogleStorageDriver) (prefix : string) :
  NoDup (directory_names (run (traced h) (ListDir driver prefix visitor) (w, [])).2.2).
Proof.
  unfold ListDir. simpl.
  destruct (h (Objects_List _ _) w) as [[entries err] w1]. simpl.
  assert (Hstart : ∀ n : string, n ∈ directory_names
            [Objects_List (getUserBucket driver)
               (if negb (String.eqb (strings_TrimLeft prefix "/") "")
                then strings_TrimLeft prefix "/" ++ "/"
                else strings_TrimLeft prefix "/")] →
            is_Some ((∅ : gmap string bool) !! n)).
  { intros n Hn. inversion Hn. }
  destruct err as [[|text]|], entries as [entries|]; simpl;
    first [apply NoDup_nil_2
          | apply ListDir_range_no_duplicates; [apply NoDup_nil_2|exact Hstart]].
Qed.

(** When what follows the prefix does not begin with a character that
    occurs in the prefix, nor with "/", the two [TrimLeft] calls of
    [ListDir] remove exactly the prefix. *)
Lemma TrimLeft_removes_prefix (d : string) (c : ascii) (r : string) :
  in_cutset c d = false → in_cutset c "/" = false →
  strings_TrimLeft (strings_TrimLeft (d ++ String c r) d) "/" = String c r.
Proof.
  intros Hd Hs.
  assert (Hcut : ∀ p, (∀ x, in_cutset x p = true → in_cutset x d = true) →
                      strings_TrimLeft (p ++ String c r) d = String c r).
  { induction p as [|x p IH]; intros Hsub; simpl.
    - rewrite Hd. reflexivity.
    - rewrite (Hsub x) by (simpl; rewrite Ascii.eqb_refl; reflexivity).
      apply IH. intros y Hy. apply Hsub. simpl. rewrite Hy.
      destruct (Ascii.eqb y x); reflexivity. }
  rewrite Hcut by auto. simpl. simpl in Hs. rewrite Hs. reflexivity.
Qed.

(** C1. [ListDir] over a backend holding the one object "a/b" (5 bytes)
    hands the callback a directory entity "a" whose embedded object record
    is that of "a/b", not the empty record: its size reads 5. *)
Theorem ListDir_directory_keeps_object :
  let f := {| name := "a"; isDir := true; User := "alice";
              Object := obj "a/b" 5 "2020-01-01T00:00:00Z" |} in
  run (memory "not found") (ListDir alice_driver "/" visitor)
      (world_of [obj "a/b" 5 "2020-01-01T00:00:00Z"])
    = (Returned None,
       {| objects := objects (world_of [obj "a/b" 5 "2020-01-01T00:00:00Z"]);
          visited := [f]; clock := 42 |}) ∧
  IsDir f = true ∧ Object f ≠ storage.Object_zero ∧ Size f = 5.
Proof. intros f. split; [vm_compute; reflexivity|]. split; [reflexivity|]. split; [discriminate|reflexivity]. Qed.

(** The directory entities of [Stat] do carry the empty object record,
    under every backend. *)
Lemma Stat_directory_object_zero {W : Type} (h : handler W) (w w' : W)
    (driver : GoogleStorageDriver) (key : string) (f : FileInfo) (err : error) :
  run h (Stat driver key) w = (Returned (Some f, err), w') →
  IsDir f = true → Object f = storage.Object_zero.
Proof.
  unfold Stat. destruct (strings_HasSuffix key "/").
  - simpl. intros [= <- <- <-] _. reflexivity.
  - simpl. destruct (h (Objects_Get _ _) w) as [[entry [e|]] w1]; simpl.
    + destruct (h (Objects_List _ _) w1) as [[entries [e'|]] w2]; simpl; [discriminate|].
      destruct entries as [entries|]; simpl; [|discriminate].
      destruct (0 <? _)%nat; simpl; [|discriminate].
      intros [= <- <- <-] _. reflexivity.
    + destruct entry as [entry|]; simpl; [|discriminate].
      intros [= <- <- <-] Hd. discriminate.
Qed.

(** C2. [ListDir("photos")] over a backend holding the one object
    "photos/shot.jpg" hands the callback a file entity named ".jpg": the
    prefix is removed as a set of characters, and with it the leading
    "shot" of the remainder "shot.jpg". *)
Theorem ListDir_file_name_mangled :
  run (memory "not found") (ListDir alice_driver "photos" visitor)
      (world_of [obj "photos/shot.jpg" 5 ""])
    = (Returned None,
       {| objects := objects (world_of [obj "photos/shot.jpg" 5 ""]);
          visited := [{| name := ".jpg"; isDir := false; User := "alice";
                         Object := obj "photos/shot.jpg" 5 "" |}];
          clock := 42 |}).
Proof. vm_compute. reflexivity. Qed.

(** C7. [ListDir("photos")] over a backend holding "photos/shots/a.jpg"
    and "photos/shots/b.jpg" hands the callback two file entities, "a.jpg"
    and "b.jpg", and no directory entity: the first-level segment "shots"
    is not emitted at all. *)
Theorem ListDir_segment_not_emitted :
  let w := world_of [obj "photos/shots/a.jpg" 5 ""; obj "photos/shots/b.jpg" 6 ""] in
  run (memory "not found") (ListDir alice_driver "photos" visitor) w
    = (Returned None,
       {| objects := objects w;
          visited := [{| name := "a.jpg"; isDir := false; User := "alice";
                         Object := obj "photos/shots/a.jpg" 5 "" |};
                      {| name := "b.jpg"; isDir := false; User := "alice";
                         Object := obj "photos/shots/b.jpg" 6 "" |}];
          clock := 42 |}) ∧
  listing (objects w) "bkt" "photos/"
    = [obj "photos/shots/a.jpg" 5 ""; obj "photos/shots/b.jpg" 6 ""].
Proof. split; vm_compute; reflexivity. Qed.


(** * Further properties of the driver *)

(** ** Records of calls *)

Lemma run_traced_from {W A : Type} (h : handler W) (p : gcs A) (w : W) (t : list request) :
  run (traced h) p (w, t) =
  ((run (traced h) p (w, [])).1,
   ((run (traced h) p (w, [])).2.1, (t ++ (run (traced h) p (w, [])).2.2)%list)).
Proof.
  revert w t. induction p as [a|text|text|r k IH]; intros w t; simpl;
    try (rewrite app_nil_r; reflexivity).
  destruct (h r w) as [x w1]. rewrite (IH x w1 (t ++ [r])%list), (IH x w1 [r]).
  simpl. rewrite <- app_assoc. reflexivity.
Qed.

(** ** Stat: the remaining paths *)

(** X1. On the reference backend, for a path not ending in "/" whose key
    holds an object, [Stat] returns a file entity and no error: the entity
    is named by the path exactly as given (leading separators included),
    carries the session user, and embeds the stored object; the backend is
    left as it was. *)
Theorem Stat_file_entity (notfound : string) (w : World)
    (driver : GoogleStorageDriver) (key : string) (o : storage.Object) :
  let K := strings_TrimLeft key "/" in
  strings_HasSuffix key "/" = false →
  objects w !! (getUserBucket driver, K) = Some o →
  run (memory notfound) (Stat driver key) w =
    (Returned (Some {| name := key; isDir := false; User := LoginUser (conn driver);
                       Object := named K o |}, None), w).
Proof.
  intros K Hs Hm. unfold Stat. rewrite Hs. simpl. fold K. rewrite Hm. reflexivity.
Qed.

Lemma Stat_file_entity_witness :
  run (memory "not found") (Stat alice_driver "//photos/a.jpg")
      (world_of [obj "photos/a.jpg" 3 ""]) =
    (Returned (Some {| name := "//photos/a.jpg"; isDir := false; User := "alice";
                       Object := obj "photos/a.jpg" 3 "" |}, None),
     world_of [obj "photos/a.jpg" 3 ""]).
Proof.
  exact (Stat_file_entity "not found" (world_of [obj "photos/a.jpg" 3 ""]) alice_driver
           "//photos/a.jpg" (obj "photos/a.jpg" 3 "") eq_refl eq_refl).
Defined.

(** X2. Under every backend, whenever [Stat] returns it returns either
    an entity and no error, or no entity and the error "This directory
    does not exist"; a returned entity is named by the path as given and
    carries the session user.  Backend errors are never passed on. *)
Theorem Stat_result_shape {W : Type} (h : handler W) (w w' : W)
    (driver : GoogleStorageDriver) (key : string) (f : option FileInfo) (err : error) :
  run h (Stat driver key) w = (Returned (f, err), w') →
  (∃ e, f = Some e ∧ err = None ∧ name e = key ∧ User e = LoginUser (conn driver)) ∨
  (f = None ∧ err = Some (errors_New "This directory does not exist")).
Proof.
  unfold Stat. destruct (strings_HasSuffix key "/").
  - simpl. intros [= <- <- <-]. left. eexists. repeat split.
  - simpl. destruct (h (Objects_Get _ _) w) as [[entry [e|]] w1]; simpl.
    + destruct (h (Objects_List _ _) w1) as [[entries [e'|]] w2]; simpl; [discriminate|].
      destruct entries as [entries|]; simpl; [|discriminate].
      destruct (0 <? _)%nat; simpl; intros [= <- <- <-].
      * left. eexists. repeat split.
      * right. split; reflexivity.
    + destruct entry as [entry|]; simpl; [|discriminate].
      intros [= <- <- <-]. left. eexists. repeat split.
Qed.

Lemma Stat_result_shape_witness :
  (∃ e, Some {| name := "/photos"; isDir := true; User := "alice";
                Object := storage.Object_zero |} = Some e ∧ (None : error) = None ∧
        name e = "/photos" ∧ User e = LoginUser (conn alice_driver)) ∨
  (Some {| name := "/photos"; isDir := true; User := "alice";
           Object := storage.Object_zero |} = None ∧
   (None : error) = Some (errors_New "This directory does not exist")).
Proof.
  exact (Stat_result_shape (memory "not found") (world_of [obj "photos/a.jpg" 3 ""])
           (world_of [obj "photos/a.jpg" 3 ""]) alice_driver "/photos" _ _ eq_refl).
Defined.

(** X3. Under every backend, when the lookup of [Stat] fails and the
    prefix listing that follows fails too, [Stat] does not return: the
    process is ended with "Could not list objects". *)
Theorem Stat_listing_failure_exits {W : Type} (h : handler W) (w w1 w2 : W)
    (driver : GoogleStorageDriver) (key : string)
    (entry : option storage.Object) (entries : option storage.Objects)
    (e e' : error_value) :
  strings_HasSuffix key "/" = false →
  h (Objects_Get (getUserBucket driver) (strings_TrimLeft key "/")) w
    = ((entry, Some e), w1) →
  h (Objects_List (getUserBucket driver) (strings_TrimLeft key "/")) w1
    = ((entries, Some e'), w2) →
  run h (Stat driver key) w = (Exited "Could not list objects", w2).
Proof.
  intros Hs Hg Hl. unfold Stat. rewrite Hs. simpl. rewrite Hg. simpl. rewrite Hl. reflexivity.
Qed.

Lemma Stat_listing_failure_exits_witness :
  run (memory_faulty (fun r => match r with Objects_List _ _ => true | _ => false end)
                     "not found")
      (Stat alice_driver "/photos") (world_of [obj "photos/a.jpg" 3 ""])
    = (Exited "Could not list objects", world_of [obj "photos/a.jpg" 3 ""]).
Proof.
  exact (Stat_listing_failure_exits
           (memory_faulty (fun r => match r with Objects_List _ _ => true | _ => false end)
                          "not found")
           (world_of [obj "photos/a.jpg" 3 ""]) (world_of [obj "photos/a.jpg" 3 ""])
           (world_of [obj "photos/a.jpg" 3 ""]) alice_driver "/photos"
           None None (errors_New "not found") unavailable eq_refl eq_refl eq_refl).
Defined.

(** ** ChangeDir *)

Lemma ChangeDir_after_Stat {W : Type} (h : handler W) (w : W)
    (driver : GoogleStorageDriver) (path : string) :
  run h (ChangeDir driver path) w =
  match run h (Stat driver path) w with
  | (Returned (_, Some e), w') => (Returned (driver, Some e), w')
  | (Returned (None, None), w') => (Panicked nil_dereference, w')
  | (Returned (Some f, None), w') =>
      if negb (IsDir f) then (Returned (driver, Some (errors_New "Not a directory")), w')
      else (Returned ({| curDir := path; bucket := bucket driver;
                         bucketPerUser := bucketPerUser driver; conn := conn driver |},
                      None), w')
  | (Exited text, w') => (Exited text, w')
  | (Panicked text, w') => (Panicked text, w')
  end.
Proof.
  unfold ChangeDir. rewrite run_bind. unfold error.
  destruct (@run W (option FileInfo * option error_value) h (Stat driver path) w)
    as [[[[f|] [e|]]|text|text] w']; try reflexivity.
  destruct (negb (IsDir f)); reflexivity.
Qed.

(** X4. Under every backend, when [ChangeDir] returns an error the
    driver is the one it was called on, and when it returns no error the
    driver differs from it only in its current directory, which is the
    path as given: bucket, per-user flag and session are never changed. *)
Theorem ChangeDir_changes_only_curDir {W : Type} (h : handler W) (w w' : W)
    (driver driver' : GoogleStorageDriver) (path : string) (err : error) :
  run h (ChangeDir driver path) w = (Returned (driver', err), w') →
  match err with
  | Some _ => driver' = driver
  | None => curDir driver' = path ∧ bucket driver' = bucket driver ∧
            bucketPerUser driver' = bucketPerUser driver ∧ conn driver' = conn driver
  end.
Proof.
  rewrite ChangeDir_after_Stat. unfold error.
  destruct (@run W (option FileInfo * option error_value) h (Stat driver path) w)
    as [[[[f|] [e|]]|text|text] w1]; try discriminate;
    try (intros [= <- <- <-]; reflexivity).
  destruct (negb (IsDir f)); intros [= <- <- <-]; [reflexivity|]. repeat split.
Qed.

Lemma ChangeDir_changes_only_curDir_witness :
  curDir {| curDir := "/photos"; bucket := "bkt"; bucketPerUser := false;
            conn := {| user := "alice" |} |} = "/photos" ∧
  "bkt" = bucket alice_driver ∧ false = bucketPerUser alice_driver ∧
  {| user := "alice" |} = conn alice_driver.
Proof.
  exact (ChangeDir_changes_only_curDir (memory "not found")
           (world_of [obj "photos/a.jpg" 3 ""]) (world_of [obj "photos/a.jpg" 3 ""])
           alice_driver _ "/photos" None eq_refl).
Defined.

(** X5. For every path ending in "/", [ChangeDir] succeeds and records
    the path as the current directory without any call, whether or not
    anything exists under that path. *)
Theorem ChangeDir_trailing_slash {W : Type} (h : handler W) (w : W) (t : list request)
    (driver : GoogleStorageDriver) (path : string) :
  strings_HasSuffix path "/" = true →
  run (traced h) (ChangeDir driver path) (w, t) =
    (Returned ({| curDir := path; bucket := bucket driver;
                  bucketPerUser := bucketPerUser driver; conn := conn driver |}, None),
     (w, t)).
Proof.
  intros Hs. rewrite ChangeDir_after_Stat. unfold Stat. rewrite Hs. reflexivity.
Qed.

Lemma ChangeDir_trailing_slash_witness :
  run (traced (memory "not found")) (ChangeDir alice_driver "/nowhere/") (world_of [], []) =
    (Returned ({| curDir := "/nowhere/"; bucket := "bkt"; bucketPerUser := false;
                  conn := {| user := "alice" |} |}, None),
     (world_of [], [])).
Proof.
  exact (ChangeDir_trailing_slash (memory "not found") (world_of []) [] alice_driver
           "/nowhere/" eq_refl).
Defined.

(** X6. On the reference backend, [ChangeDir] to a path (not ending in
    "/") whose key holds an object fails with "Not a directory" and leaves
    the driver and the backend as they were. *)
Theorem ChangeDir_to_file (notfound : string) (w : World)
    (driver : GoogleStorageDriver) (path : string) (o : storage.Object) :
  strings_HasSuffix path "/" = false →
  objects w !! (getUserBucket driver, strings_TrimLeft path "/") = Some o →
  run (memory notfound) (ChangeDir driver path) w =
    (Returned (driver, Some (errors_New "Not a directory")), w).
Proof.
  intros Hs Hm. rewrite ChangeDir_after_Stat.
  unfold Stat. rewrite Hs. simpl. rewrite Hm. reflexivity.
Qed.

Lemma ChangeDir_to_file_witness :
  run (memory "not found") (ChangeDir alice_driver "/photos/a.jpg")
      (world_of [obj "photos/a.jpg" 3 ""]) =
    (Returned (alice_driver, Some (errors_New "Not a directory")),
     world_of [obj "photos/a.jpg" 3 ""]).
Proof.
  exact (ChangeDir_to_file "not found" (world_of [obj "photos/a.jpg" 3 ""]) alice_driver
           "/photos/a.jpg" (obj "photos/a.jpg" 3 "") eq_refl eq_refl).
Defined.

(** ** DeleteFile *)

(** X7. On the reference backend [DeleteFile] always returns; afterwards
    the key of the path (leading separators stripped) holds no object, no
    other object is touched, and the error is nil exactly when the key held
    an object before: deleting a missing file is reported as an error. *)
Theorem DeleteFile_memory (notfound : string) (w : World)
    (driver : GoogleStorageDriver) (key : string) :
  let b := getUserBucket driver in
  let K := strings_TrimLeft key "/" in
  ∃ (err : error) (w' : World),
    run (memory notfound) (DeleteFile driver key) w = (Returned err, w') ∧
    (err = None ↔ is_Some (objects w !! (b, K))) ∧
    (err ≠ None → err = Some (errors_New notfound)) ∧
    objects w' !! (b, K) = None ∧
    ∀ k', k' ≠ (b, K) → objects w' !! k' = objects w !! k'.
Proof.
  intros b K. unfold DeleteFile. simpl. fold b K.
  destruct (objects w !! (b, K)) as [o|] eqn:Hm.
  - exists None, (with_objects w (delete (b, K) (objects w))).
    split; [reflexivity|]. split; [split; eauto|]. split; [congruence|].
    split; [apply lookup_delete_eq|]. intros k' Hk. apply lookup_delete_ne. congruence.
  - exists (Some (errors_New notfound)), w.
    split; [reflexivity|]. split; [split; [discriminate|intros [? [=]]]|].
    split; [reflexivity|]. split; [exact Hm|reflexivity].
Qed.

Lemma DeleteFile_memory_witness :
  ∃ (err : error) (w' : World),
    run (memory "not found") (DeleteFile alice_driver "/a")
        (world_of [obj "a" 1 ""; obj "ab" 2 ""]) = (Returned err, w') ∧
    err = None ∧ objects w' !! ("bkt", "a") = None ∧
    objects w' !! ("bkt", "ab") = Some (obj "ab" 2 "").
Proof.
  destruct (DeleteFile_memory "not found" (world_of [obj "a" 1 ""; obj "ab" 2 ""])
              alice_driver "/a") as (err & w' & Hrun & Herr & _ & Hgone & Hother).
  exists err, w'. split; [exact Hrun|]. split; [|split].
  - apply Herr. eexists. reflexivity.
  - exact Hgone.
  - rewrite Hother by discriminate. reflexivity.
Defined.

(** ** DeleteDir: errors and partial deletion *)

Lemma DeleteDir_range_trace {W : Type} (h : handler W) (driver : GoogleStorageDriver)
    (l : list storage.Object) (w : W) :
  ∃ (n : nat) (err : error) (w' : W),
    run (traced h) (DeleteDir_range driver l) (w, []) =
      (Returned err,
       (w', (fun o => Objects_Delete (getUserBucket driver) (storage.Name o)) <$> take n l)) ∧
    (n ≤ List.length l)%nat ∧ (err = None → n = List.length l).
Proof.
  revert w. induction l as [|o l IH]; intros w; simpl.
  - exists 0%nat, None, w. split; [reflexivity|split; [lia|reflexivity]].
  - destruct (h (Objects_Delete _ _) w) as [[e|] w1]; simpl.
    + exists 1%nat, (Some e), w1. split; [reflexivity|].
      split; [lia|discriminate].
    + destruct (IH w1) as (n & err & w' & Hrun & Hn & Hall).
      exists (S n), err, w'. rewrite run_traced_from, Hrun. simpl.
      split; [reflexivity|]. split; [lia|]. intros He. rewrite (Hall He). reflexivity.
Qed.

(** X8. Under every backend, once the listing of [DeleteDir] has
    answered, [DeleteDir] returns (it neither exits nor panics), and the
    deletes it has issued are those of the keys listed, in the order
    listed, up to some point: nothing that was not listed is deleted, and
    if no error is returned every listed key has been deleted. *)
Theorem DeleteDir_deletes_listed_in_order {W : Type} (h : handler W) (w w1 : W)
    (driver : GoogleStorageDriver) (key : string) (entries : storage.Objects) :
  h (Objects_List (getUserBucket driver) (strings_TrimLeft key "/")) w
    = ((Some entries, None), w1) →
  ∃ (n : nat) (err : error) (w' : W) (t : list request),
    run (traced h) (DeleteDir driver key) (w, []) = (Returned err, (w', t)) ∧
    deletes t = (fun o => (getUserBucket driver, storage.Name o))
                  <$> take n (storage.Items entries) ∧
    (err = None → n = List.length (storage.Items entries)).
Proof.
  intros Hl. unfold DeleteDir. simpl. rewrite Hl. simpl.
  destruct (storage.Items entries) as [|o l] eqn:Hi.
  - exists 0%nat, None, w1. eexists. split; [reflexivity|]. split; reflexivity.
  - rewrite <- Hi. replace (List.length (storage.Items entries) =? 0)%nat with false
      by (rewrite Hi; reflexivity).
    destruct (DeleteDir_range_trace h driver (storage.Items entries) w1)
      as (n & err & w' & Hrun & _ & Hall).
    exists n, err, w'. eexists. rewrite run_traced_from, Hrun. simpl.
    split; [reflexivity|]. split; [|exact Hall].
    unfold deletes. simpl. clear. induction (take n (storage.Items entries)) as [|x l' IH];
      simpl; [reflexivity|]. f_equal. exact IH.
Qed.

Lemma DeleteDir_deletes_listed_in_order_witness :
  ∃ (n : nat) (err : error) (w' : World) (t : list request),
    run (traced (memory "not found")) (DeleteDir alice_driver "/foo")
        (world_of [obj "foo/a" 1 ""; obj "bar" 3 ""], []) = (Returned err, (w', t)) ∧
    deletes t = (fun o => ("bkt", storage.Name o)) <$> take n [obj "foo/a" 1 ""] ∧
    (err = None → n = 1%nat).
Proof.
  exact (DeleteDir_deletes_listed_in_order (memory "not found")
           (world_of [obj "foo/a" 1 ""; obj "bar" 3 ""])
           (world_of [obj "foo/a" 1 ""; obj "bar" 3 ""]) alice_driver "/foo"
           {| storage.Items := [obj "foo/a" 1 ""] |} eq_refl).
Defined.

Lemma memory_faulty_sound (faulty : request → bool) (notfound : string)
    (r : request) (w : World) :
  faulty r = false → memory_faulty faulty notfound r w = memory notfound r w.
Proof. intros H. unfold memory_faulty. rewrite H. reflexivity. Qed.




(** ** A failed listing *)

(** X10. Under every backend, when the listing fails with an error other
    than the end-of-data marker, [DeleteDir] and [ListDir] return that
    error at once: the listing is the only call made, nothing is deleted,
    and the callback, whatever it is, is not run. *)
Theorem listing_error_is_returned {W : Type} (h : handler W) (w w' : W)
    (driver : GoogleStorageDriver) (path : string) (callback : FileInfo → gcs error)
    (entries : option storage.Objects) (e : error_value) :
  e ≠ io_EOF →
  (h (Objects_List (getUserBucket driver) (strings_TrimLeft path "/")) w
     = ((entries, Some e), w') →
   run (traced h) (DeleteDir driver path) (w, []) =
     (Returned (Some e),
      (w', [Objects_List (getUserBucket driver) (strings_TrimLeft path "/")]))) ∧
  (let d := strings_TrimLeft path "/" in
   let d := if negb (String.eqb d "") then d ++ "/" else d in
   h (Objects_List (getUserBucket driver) d) w = ((entries, Some e), w') →
   run (traced h) (ListDir driver path callback) (w, []) =
     (Returned (Some e), (w', [Objects_List (getUserBucket driver) d]))).
Proof.
  intros He. split.
  - intros Hl. unfold DeleteDir. simpl. rewrite Hl. simpl.
    destruct (decide (Some e = Some io_EOF)) as [[= Heq]|_]; [contradiction|reflexivity].
  - intros d0 d Hl. unfold ListDir. simpl. fold d0 d. rewrite Hl. simpl.
    destruct (decide (Some e = Some io_EOF)) as [[= Heq]|_]; [contradiction|reflexivity].
Qed.

Lemma listing_error_is_returned_witness :
  let broken := memory_faulty (fun r => match r with Objects_List _ _ => true | _ => false end)
                              "not found" in
  run (traced broken) (DeleteDir alice_driver "/docs") (world_of [obj "docs/a.txt" 1 ""], []) =
    (Returned (Some unavailable),
     (world_of [obj "docs/a.txt" 1 ""], [Objects_List "bkt" "docs"])) ∧
  run (traced broken) (ListDir alice_driver "/docs" visitor)
      (world_of [obj "docs/a.txt" 1 ""], []) =
    (Returned (Some unavailable),
     (world_of [obj "docs/a.txt" 1 ""], [Objects_List "bkt" "docs/"])).
Proof.
  intros broken.
  destruct (listing_error_is_returned broken (world_of [obj "docs/a.txt" 1 ""])
              (world_of [obj "docs/a.txt" 1 ""]) alice_driver "/docs" visitor None unavailable)
    as [Hd Hl]; [discriminate|].
  split; [exact (Hd eq_refl)|exact (Hl eq_refl)].
Defined.

(** ** The end-of-data marker *)

(** X11. Under every backend, when a listing answers with no result and
    either no error or the end-of-data marker, [ListDir] and [DeleteDir]
    both go on to read the items of the missing result: they panic instead
    of returning.  The marker is a clean end only together with a result. *)
Theorem listing_without_result_panics {W : Type} (h : handler W) (w w' : W)
    (driver : GoogleStorageDriver) (path : string) (callback : FileInfo → gcs error)
    (err : error) :
  err = None ∨ err = Some io_EOF →
  (h (Objects_List (getUserBucket driver) (strings_TrimLeft path "/")) w = ((None, err), w') →
   run h (DeleteDir driver path) w = (Panicked nil_dereference, w')) ∧
  (let d := strings_TrimLeft path "/" in
   let d := if negb (String.eqb d "") then d ++ "/" else d in
   h (Objects_List (getUserBucket driver) d) w = ((None, err), w') →
   run h (ListDir driver path callback) w = (Panicked nil_dereference, w')).
Proof.
  intros He. split.
  - intros Hl. unfold DeleteDir. simpl. rewrite Hl. simpl.
    destruct He as [-> | ->]; reflexivity.
  - intros d d' Hl. unfold ListDir. simpl. fold d d'. rewrite Hl. simpl.
    destruct He as [-> | ->]; reflexivity.
Qed.

Lemma listing_without_result_panics_witness :
  run (memory_end_of_data "not found") (DeleteDir alice_driver "/photos") (world_of [])
    = (Panicked nil_dereference, world_of []) ∧
  run (memory_end_of_data "not found") (ListDir alice_driver "/photos" visitor) (world_of [])
    = (Panicked nil_dereference, world_of []).
Proof.
  destruct (listing_without_result_panics (memory_end_of_data "not found")
              (world_of []) (world_of []) alice_driver "/photos" visitor (Some io_EOF)
              (or_intror eq_refl)) as [Hd Hl].
  split; [exact (Hd eq_refl)|exact (Hl eq_refl)].
Defined.

(** ** ListDir: what reaches the callback *)

Lemma HasPrefix_slash (c : ascii) (s : string) :
  strings_HasPrefix (String c s) "/" = Ascii.eqb c "/".
Proof. simpl. destruct (Ascii.eqb c "/"); reflexivity. Qed.

Lemma Contains_slash_cons (c : ascii) (s : string) :
  strings_Contains (String c s) "/" = Ascii.eqb c "/" || strings_Contains s "/".
Proof.
  change (strings_Contains (String c s) "/")
    with (if strings_HasPrefix (String c s) "/" then true else strings_Contains s "/").
  rewrite HasPrefix_slash. destruct (Ascii.eqb c "/"); reflexivity.
Qed.

Lemma Contains_slash_snoc (cur : string) (c : ascii) :
  strings_Contains cur "/" = false → Ascii.eqb c "/" = false →
  strings_Contains (cur ++ String c "") "/" = false.
Proof.
  intros Hcur Hc. induction cur as [|x cur IH].
  - simpl. rewrite Hc. reflexivity.
  - change (String x cur ++ String c "") with (String x (cur ++ String c "")).
    rewrite Contains_slash_cons in *. apply orb_false_iff in Hcur as [Hx Hcur].
    rewrite Hx, IH by exact Hcur. reflexivity.
Qed.

Lemma HasPrefix_refl (s : string) : strings_HasPrefix s s = true.
Proof. induction s as [|c s IH]; simpl; [reflexivity|]. rewrite Ascii.eqb_refl. exact IH. Qed.

Lemma HasPrefix_app_app (p q r : string) : strings_HasPrefix ((p ++ q) ++ r) p = true.
Proof. induction p as [|c p IH]; simpl; [reflexivity|]. rewrite Ascii.eqb_refl. exact IH. Qed.

(** The first piece of a split at "/" holds no "/" and begins with what
    had been gathered before. *)
Lemma split_from_first (s cur : string) :
  strings_Contains cur "/" = false →
  ∃ first rest, split_from s "/" 0 cur = first :: rest ∧
                strings_Contains first "/" = false ∧
                strings_HasPrefix first cur = true.
Proof.
  revert cur. induction s as [|c s IH]; intros cur Hcur.
  - exists cur, []. split; [reflexivity|]. split; [exact Hcur|apply HasPrefix_refl].
  - cbn [split_from]. rewrite HasPrefix_slash. destruct (Ascii.eqb c "/") eqn:Hc.
    + eexists cur, _. split; [reflexivity|]. split; [exact Hcur|apply HasPrefix_refl].
    + destruct (IH (cur ++ String c "")) as (first & rest & Hsplit & Hno & Hpre).
      { apply Contains_slash_snoc; assumption. }
      exists first, rest. split; [exact Hsplit|]. split; [exact Hno|].
      apply HasPrefix_spec in Hpre as [r ->]. apply HasPrefix_app_app.
Qed.

Lemma Trim_without_slash (s : string) :
  strings_Contains s "/" = false → strings_Trim s "/" = s.
Proof.
  intros Hs. unfold strings_Trim.
  assert (Hl : strings_TrimLeft s "/" = s).
  { destruct s as [|c s]; [reflexivity|]. rewrite Contains_slash_cons in Hs.
    apply orb_false_iff in Hs as [Hc _]. simpl. rewrite Hc. reflexivity. }
  rewrite Hl. induction s as [|c s IH]; [reflexivity|].
  rewrite Contains_slash_cons in Hs. apply orb_false_iff in Hs as [Hc Hs].
  simpl. rewrite IH.
  - destruct s; [rewrite Hc|]; reflexivity.
  - exact Hs.
  - destruct s as [|c' s]; [reflexivity|]. rewrite Contains_slash_cons in Hs.
    apply orb_false_iff in Hs as [Hc' _]. simpl. rewrite Hc'. reflexivity.
Qed.

Lemma TrimLeft_slash_head (s : string) :
  match strings_TrimLeft s "/" with
  | EmptyString => True
  | String c _ => Ascii.eqb c "/" = false
  end.
Proof.
  induction s as [|c s IH]; simpl; [exact I|].
  destruct (Ascii.eqb c "/") eqn:Hc; [exact IH|exact Hc].
Qed.

(** The directory name the loop derives from a key that is not empty and
    contains a "/". *)
Lemma directory_name_of_key (s : string) :
  let key := strings_TrimLeft s "/" in
  String.eqb key "" = false →
  ∃ first rest, strings_Split key "/" = first :: rest ∧
                strings_Trim first "/" = first ∧ first ≠ "" ∧
                strings_Contains first "/" = false.
Proof.
  intros key Hne. pose proof (TrimLeft_slash_head s) as Hhead. fold key in Hhead.
  destruct key as [|c key']; [discriminate|].
  unfold strings_Split. cbn [split_from]. rewrite HasPrefix_slash, Hhead.
  destruct (split_from_first key' ("" ++ String c "")) as (first & rest & Hs & Hno & Hpre).
  { simpl. rewrite Hhead. reflexivity. }
  exists first, rest. split; [exact Hs|]. split; [apply Trim_without_slash; exact Hno|].
  split; [|exact Hno]. intros ->. discriminate.
Qed.

Lemma ListDir_range_trace {W : Type} (h : handler W) (driver : GoogleStorageDriver)
    (prefix d : string) (items : list storage.Object) :
  ∀ (dirCache : gmap string bool) (w : W),
  ∃ (n : nat) (err : error) (w' : W),
    run (traced h) (ListDir_range driver prefix d visitor dirCache items) (w, []) =
      (Returned err,
       (w', Visit <$> take n (ListDir_entities driver prefix d dirCache items))) ∧
    (err = None → n = List.length (ListDir_entities driver prefix d dirCache items)).
Proof.
  induction items as [|entry rest IH]; intros dirCache w.
  - exists 0%nat, None, w. split; reflexivity.
  - cbn [ListDir_range ListDir_entities].
    destruct (negb (String.eqb prefix "/") && negb (String.eqb prefix "")
              && negb (strings_HasPrefix (storage.Name entry) d)); [apply IH|].
    cbv zeta.
    destruct (String.eqb (strings_TrimLeft (strings_TrimLeft (storage.Name entry) d) "/") "")
      eqn:Hne; [apply IH|].
    assert (Hstep : ∀ (f : FileInfo) (dirCache' : gmap string bool),
              ∃ (n : nat) (err : error) (w' : W),
                run (traced h)
                    (err ← visitor f;
                     match err with
                     | Some e => Ret (Some e)
                     | None => ListDir_range driver prefix d visitor dirCache' rest
                     end) (w, []) =
                  (Returned err,
                   (w', Visit <$> take n (f :: ListDir_entities driver prefix d dirCache' rest))) ∧
                (err = None →
                 n = List.length (f :: ListDir_entities driver prefix d dirCache' rest))).
    { intros f dirCache'. simpl. destruct (h (Visit f) w) as [[e|] w1]; simpl.
      - exists 1%nat, (Some e), w1. split; [reflexivity|discriminate].
      - destruct (IH dirCache' w1) as (n & err & w' & Hrun & Hall).
        exists (S n), err, w'. rewrite run_traced_from, Hrun. simpl.
        split; [reflexivity|]. intros He. rewrite (Hall He). reflexivity. }
    destruct (strings_Contains (strings_TrimLeft (strings_TrimLeft (storage.Name entry) d) "/") "/").
    + destruct (directory_name_of_key (strings_TrimLeft (storage.Name entry) d) Hne)
        as (first & more & Hsplit & _). rewrite Hsplit.
      destruct (dirCache !! strings_Trim first "/"); [apply IH|apply Hstep].
    + apply Hstep.
Qed.

(** Every entity of the loop has a name that is not empty and holds no
    "/", carries the session user and embeds a listed object. *)
Lemma ListDir_entities_wellformed (driver : GoogleStorageDriver) (prefix d : string)
    (items : list storage.Object) :
  ∀ (dirCache : gmap string bool) (f : FileInfo),
    f ∈ ListDir_entities driver prefix d dirCache items →
    name f ≠ "" ∧ strings_Contains (name f) "/" = false ∧
    User f = LoginUser (conn driver) ∧ Object f ∈ items.
Proof.
  induction items as [|entry rest IH]; intros dirCache f Hf; [inversion Hf|].
  assert (Hrest : ∀ dirCache', f ∈ ListDir_entities driver prefix d dirCache' rest →
                    name f ≠ "" ∧ strings_Contains (name f) "/" = false ∧
                    User f = LoginUser (conn driver) ∧ Object f ∈ entry :: rest).
  { intros dirCache' H. destruct (IH dirCache' f H) as (H1 & H2 & H3 & H4).
    repeat split; try assumption. right. exact H4. }
  cbn [ListDir_entities] in Hf.
  destruct (negb (String.eqb prefix "/") && negb (String.eqb prefix "")
            && negb (strings_HasPrefix (storage.Name entry) d)); [eapply Hrest; exact Hf|].
  cbv zeta in Hf.
  destruct (String.eqb (strings_TrimLeft (strings_TrimLeft (storage.Name entry) d) "/") "")
    eqn:Hne; [eapply Hrest; exact Hf|].
  destruct (strings_Contains (strings_TrimLeft (strings_TrimLeft (storage.Name entry) d) "/") "/")
    eqn:Hc.
  - destruct (directory_name_of_key (strings_TrimLeft (storage.Name entry) d) Hne)
      as (first & more & Hsplit & Htrim & Hfirst & Hno). rewrite Hsplit, Htrim in Hf.
    destruct (dirCache !! first); [eapply Hrest; exact Hf|].
    apply elem_of_cons in Hf as [->|Hf]; [|eapply Hrest; exact Hf].
    simpl. repeat split; try assumption. left.
  - apply elem_of_cons in Hf as [->|Hf]; [|eapply Hrest; exact Hf].
    simpl. repeat split; try assumption; [|left].
    intros Heq. rewrite Heq in Hne. discriminate.
Qed.

Lemma ListDir_trace {W : Type} (h : handler W) (w w1 : W)
    (driver : GoogleStorageDriver) (prefix : string)
    (entries : storage.Objects) (lerr : error) :
  let d := strings_TrimLeft prefix "/" in
  let d := if negb (String.eqb d "") then d ++ "/" else d in
  h (Objects_List (getUserBucket driver) d) w = ((Some entries, lerr), w1) →
  lerr = None ∨ lerr = Some io_EOF →
  ∃ (n : nat) (err : error) (w' : W) (t : list request),
    run (traced h) (ListDir driver prefix visitor) (w, []) = (Returned err, (w', t)) ∧
    visits t = take n (ListDir_entities driver prefix d ∅ (storage.Items entries)) ∧
    (err = None →
     n = List.length (ListDir_entities driver prefix d ∅ (storage.Items entries))).
Proof.
  intros d0 d Hl He. unfold ListDir. simpl. fold d0 d. rewrite Hl. simpl.
  destruct (ListDir_range_trace h driver prefix d (storage.Items entries) ∅ w1)
    as (n & err & w' & Hrun & Hall).
  exists n, err, w'.
  exists ([Objects_List (getUserBucket driver) d]
          ++ (Visit <$> take n (ListDir_entities driver prefix d ∅ (storage.Items entries))))%list.
  assert (Hgo : run (traced h)
                    (ListDir_range driver prefix d visitor ∅ (storage.Items entries))
                    (w1, [Objects_List (getUserBucket driver) d]) =
                (Returned err,
                 (w', ([Objects_List (getUserBucket driver) d]
                       ++ (Visit <$> take n (ListDir_entities driver prefix d ∅
                                               (storage.Items entries))))%list))).
  { rewrite run_traced_from, Hrun. reflexivity. }
  split; [destruct He as [-> | ->]; simpl; exact Hgo|]. split; [|exact Hall].
  unfold visits. simpl. clear.
  induction (take n _) as [|x l IH]; simpl; [reflexivity|]. f_equal. exact IH.
Qed.

(** X12. Under every backend and whatever the callback answers, once the
    listing of [ListDir] has answered with a result, [ListDir] returns (it
    neither exits nor panics), and the entities handed to the callback are
    an initial part of the entities of the loop; all of them if no error is
    returned. *)
Theorem ListDir_visits_entities_in_order {W : Type} (h : handler W) (w w1 : W)
    (driver : GoogleStorageDriver) (prefix : string)
    (entries : storage.Objects) (lerr : error) :
  let d := strings_TrimLeft prefix "/" in
  let d := if negb (String.eqb d "") then d ++ "/" else d in
  h (Objects_List (getUserBucket driver) d) w = ((Some entries, lerr), w1) →
  lerr = None ∨ lerr = Some io_EOF →
  ∃ (n : nat) (err : error) (w' : W) (t : list request),
    run (traced h) (ListDir driver prefix visitor) (w, []) = (Returned err, (w', t)) ∧
    visits t = take n (ListDir_entities driver prefix d ∅ (storage.Items entries)) ∧
    (err = None →
     n = List.length (ListDir_entities driver prefix d ∅ (storage.Items entries))).
Proof. exact (ListDir_trace h w w1 driver prefix entries lerr). Qed.

Lemma ListDir_visits_entities_in_order_witness :
  ∃ (n : nat) (err : error) (w' : World) (t : list request),
    run (traced (memory "not found")) (ListDir alice_driver "/docs" visitor)
        (world_of [obj "docs/a.txt" 1 ""], []) = (Returned err, (w', t)) ∧
    visits t = take n [ {| name := "a.txt"; isDir := false; User := "alice";
                           Object := obj "docs/a.txt" 1 "" |} ] ∧
    (err = None → n = 1%nat).
Proof.
  exact (ListDir_visits_entities_in_order (memory "not found")
           (world_of [obj "docs/a.txt" 1 ""]) (world_of [obj "docs/a.txt" 1 ""])
           alice_driver "/docs" {| storage.Items := [obj "docs/a.txt" 1 ""] |} None
           eq_refl (or_introl eq_refl)).
Defined.

(** X13. Under every backend and whatever the callback answers, every
    entity [ListDir] hands to the callback has a name that is not empty
    and contains no "/", carries the session user, and embeds one of the
    objects the listing returned. *)
Theorem ListDir_entities_are_wellformed {W : Type} (h : handler W) (w w1 : W)
    (driver : GoogleStorageDriver) (prefix : string)
    (entries : storage.Objects) (lerr : error) (f : FileInfo) :
  let d := strings_TrimLeft prefix "/" in
  let d := if negb (String.eqb d "") then d ++ "/" else d in
  h (Objects_List (getUserBucket driver) d) w = ((Some entries, lerr), w1) →
  f ∈ visits (run (traced h) (ListDir driver prefix visitor) (w, [])).2.2 →
  name f ≠ "" ∧ strings_Contains (name f) "/" = false ∧
  User f = LoginUser (conn driver) ∧ Object f ∈ storage.Items entries.
Proof.
  intros d0 d Hl Hf.
  assert (Hsub : lerr = None ∨ lerr = Some io_EOF ∨
                 visits (run (traced h) (ListDir driver prefix visitor) (w, [])).2.2 = []).
  { destruct lerr as [[|text]|]; [right; left; reflexivity| |left; reflexivity].
    right. right. unfold ListDir. simpl. fold d0 d. rewrite Hl. reflexivity. }
  destruct Hsub as [He|[He|Hnil]]; [| |rewrite Hnil in Hf; inversion Hf].
  - destruct (ListDir_trace h w w1 driver prefix entries lerr Hl
                (or_introl He)) as (n & err & w' & t & Hrun & Hv & _).
    fold d0 in Hf. rewrite Hrun in Hf. simpl in Hf. rewrite Hv in Hf.
    apply elem_of_take in Hf as (i & Hi & _). apply list_elem_of_lookup_2 in Hi.
    eapply ListDir_entities_wellformed. exact Hi.
  - destruct (ListDir_trace h w w1 driver prefix entries lerr Hl
                (or_intror He)) as (n & err & w' & t & Hrun & Hv & _).
    fold d0 in Hf. rewrite Hrun in Hf. simpl in Hf. rewrite Hv in Hf.
    apply elem_of_take in Hf as (i & Hi & _). apply list_elem_of_lookup_2 in Hi.
    eapply ListDir_entities_wellformed. exact Hi.
Qed.

Lemma ListDir_entities_are_wellformed_witness :
  let f := {| name := "2020"; isDir := true; User := "alice";
              Object := obj "docs/2020/a.txt" 1 "" |} in
  name f ≠ "" ∧ strings_Contains (name f) "/" = false ∧
  User f = "alice" ∧ Object f ∈ [obj "docs/2020/a.txt" 1 ""].
Proof.
  intros f.
  apply (ListDir_entities_are_wellformed (memory "not found")
           (world_of [obj "docs/2020/a.txt" 1 ""]) (world_of [obj "docs/2020/a.txt" 1 ""])
           alice_driver "/docs" {| storage.Items := [obj "docs/2020/a.txt" 1 ""] |} None f
           eq_refl).
  vm_compute. left.
Defined.

Lemma ListDir_range_first_error (faulty : request → bool) (notfound : string)
    (driver : GoogleStorageDriver) (prefix d : string) (items : list storage.Object) :
  (∀ f, faulty (Visit f) = true) →
  ∀ (dirCache : gmap string bool) (w : World) (t : list request),
    run (traced (memory_faulty faulty notfound))
        (ListDir_range driver prefix d visitor dirCache items) (w, t) =
    match ListDir_entities driver prefix d dirCache items with
    | [] => (Returned None, (w, t))
    | f :: _ => (Returned (Some unavailable), (w, (t ++ [Visit f])%list))
    end.
Proof.
  intros Hbad. induction items as [|entry rest IH]; intros dirCache w t; [reflexivity|].
  cbn [ListDir_range ListDir_entities].
  destruct (negb (String.eqb prefix "/") && negb (String.eqb prefix "")
            && negb (strings_HasPrefix (storage.Name entry) d)); [apply IH|].
  cbv zeta.
  destruct (String.eqb (strings_TrimLeft (strings_TrimLeft (storage.Name entry) d) "/") "")
    eqn:Hne; [apply IH|].
  destruct (strings_Contains (strings_TrimLeft (strings_TrimLeft (storage.Name entry) d) "/") "/").
  - destruct (directory_name_of_key (strings_TrimLeft (storage.Name entry) d) Hne)
      as (first & more & Hsplit & _). rewrite Hsplit.
    destruct (dirCache !! strings_Trim first "/"); [apply IH|].
    simpl. unfold memory_faulty. rewrite Hbad. reflexivity.
  - simpl. unfold memory_faulty. rewrite Hbad. reflexivity.
Qed.

(** X14. On a backend whose callback always fails, [ListDir] runs the
    callback on the first entity only and returns the callback's error;
    with no entity to hand over it returns nil. *)
Theorem ListDir_stops_at_callback_error (faulty : request → bool) (notfound : string)
    (w : World) (driver : GoogleStorageDriver) (prefix : string) :
  let b := getUserBucket driver in
  let d := strings_TrimLeft prefix "/" in
  let d := if negb (String.eqb d "") then d ++ "/" else d in
  faulty (Objects_List b d) = false →
  (∀ f, faulty (Visit f) = true) →
  run (traced (memory_faulty faulty notfound)) (ListDir driver prefix visitor) (w, []) =
    match ListDir_entities driver prefix d ∅ (listing (objects w) b d) with
    | [] => (Returned None, (w, [Objects_List b d]))
    | f :: _ => (Returned (Some unavailable), (w, [Objects_List b d; Visit f]))
    end.
Proof.
  intros b d0 d Hlist Hbad. unfold ListDir. simpl. fold b d0 d.
  rewrite memory_faulty_sound by exact Hlist. simpl.
  apply ListDir_range_first_error. exact Hbad.
Qed.

Lemma ListDir_stops_at_callback_error_witness :
  run (traced (memory_faulty (fun r => match r with Visit _ => true | _ => false end)
                             "not found"))
      (ListDir alice_driver "/" visitor) (world_of [obj "a" 1 ""; obj "b" 2 ""], []) =
    (Returned (Some unavailable),
     (world_of [obj "a" 1 ""; obj "b" 2 ""],
      [Objects_List "bkt" "";
       Visit {| name := "a"; isDir := false; User := "alice"; Object := obj "a" 1 "" |}])).
Proof.
  exact (ListDir_stops_at_callback_error
           (fun r => match r with Visit _ => true | _ => false end) "not found"
           (world_of [obj "a" 1 ""; obj "b" 2 ""]) alice_driver "/" eq_refl
           (fun _ => eq_refl)).
Defined.

Lemma ListDir_range_memory (notfound : string) (driver : GoogleStorageDriver)
    (prefix d : string) (items : list storage.Object) :
  ∀ (dirCache : gmap string bool) (w : World),
    run (memory notfound) (ListDir_range driver prefix d visitor dirCache items) w =
    (Returned None,
     {| objects := objects w;
        visited := (visited w ++ ListDir_entities driver prefix d dirCache items)%list;
        clock := clock w |}).
Proof.
  induction items as [|entry rest IH]; intros dirCache w.
  { simpl. rewrite app_nil_r. destruct w; reflexivity. }
  cbn [ListDir_range ListDir_entities].
  destruct (negb (String.eqb prefix "/") && negb (String.eqb prefix "")
            && negb (strings_HasPrefix (storage.Name entry) d)); [apply IH|].
  cbv zeta.
  destruct (String.eqb (strings_TrimLeft (strings_TrimLeft (storage.Name entry) d) "/") "")
    eqn:Hne; [apply IH|].
  destruct (strings_Contains (strings_TrimLeft (strings_TrimLeft (storage.Name entry) d) "/") "/").
  - destruct (directory_name_of_key (strings_TrimLeft (storage.Name entry) d) Hne)
      as (first & more & Hsplit & _). rewrite Hsplit.
    destruct (dirCache !! strings_Trim first "/"); [apply IH|].
    simpl. rewrite IH. simpl. rewrite <- app_assoc. reflexivity.
  - simpl. rewrite IH. simpl. rewrite <- app_assoc. reflexivity.
Qed.

Lemma ListDir_memory (notfound : string) (w : World)
    (driver : GoogleStorageDriver) (prefix : string) :
  let b := getUserBucket driver in
  let d := strings_TrimLeft prefix "/" in
  let d := if negb (String.eqb d "") then d ++ "/" else d in
  run (memory notfound) (ListDir driver prefix visitor) w =
    (Returned None,
     {| objects := objects w;
        visited := (visited w
                    ++ ListDir_entities driver prefix d ∅ (listing (objects w) b d))%list;
        clock := clock w |}).
Proof. intros b d0 d. unfold ListDir. simpl. apply ListDir_range_memory. Qed.

(** X15. On the reference backend [ListDir] changes no object and
    returns nil, and a second call with the same prefix hands the callback
    the same entities in the same order as the first. *)
Theorem ListDir_repeatable (notfound : string) (w : World)
    (driver : GoogleStorageDriver) (prefix : string) :
  let first := run (memory notfound) (ListDir driver prefix visitor) w in
  let second := run (memory notfound) (ListDir driver prefix visitor) first.2 in
  first.1 = Returned None ∧ second.1 = Returned None ∧
  objects first.2 = objects w ∧ objects second.2 = objects w ∧
  ∃ es, visited first.2 = (visited w ++ es)%list ∧
        visited second.2 = (visited first.2 ++ es)%list.
Proof.
  intros first second. unfold second, first. rewrite !ListDir_memory. simpl.
  repeat split. eexists. split; reflexivity.
Qed.

(** ** MakeDir and what follows it *)

Lemma DeleteDir_memory (notfound : string) (w : World)
    (driver : GoogleStorageDriver) (key : string) :
  let b := getUserBucket driver in
  let d := strings_TrimLeft key "/" in
  run (memory notfound) (DeleteDir driver key) w =
    (Returned None, with_objects w (delete_all b (listing (objects w) b d) (objects w))).
Proof.
  intros b d. unfold DeleteDir. simpl. fold b d.
  destruct (listing (objects w) b d) as [|o l] eqn:Hl.
  - simpl. rewrite with_objects_same. reflexivity.
  - rewrite <- Hl. replace (List.length (listing (objects w) b d) =? 0)%nat with false
      by (rewrite Hl; reflexivity).
    apply DeleteDir_range_memory; [apply NoDup_listing|].
    intros o' Ho'. apply elem_of_listing in Ho' as (k & o'' & Hm & _ & ->).
    rewrite Name_named. eauto.
Qed.

Lemma delete_listing_lookup (m : gmap (string * string) storage.Object)
    (b d b' k : string) :
  delete_all b (listing m b d) m !! (b', k) =
  if bool_decide (b' = b) && strings_HasPrefix k d then None else m !! (b', k).
Proof.
  rewrite delete_all_lookup. destruct (decide (b' = b)) as [->|Hb].
  - rewrite (bool_decide_eq_true_2 (b = b)) by reflexivity. simpl.
    destruct (strings_HasPrefix k d) eqn:Hp.
    + destruct (m !! (b, k)) as [o|] eqn:Hm; [|destruct (bool_decide _); reflexivity].
      rewrite bool_decide_eq_true_2; [reflexivity|]. split; [reflexivity|].
      apply list_elem_of_fmap. exists (named k o). split; [reflexivity|].
      apply elem_of_listing. eauto.
    + rewrite bool_decide_eq_false_2; [reflexivity|]. intros [_ Hin].
      apply list_elem_of_fmap in Hin as (o' & -> & Ho').
      apply elem_of_listing in Ho' as (k' & o'' & _ & Hp' & ->).
      rewrite Name_named in Hp. congruence.
  - rewrite (bool_decide_eq_false_2 (b' = b)) by exact Hb. simpl.
    rewrite bool_decide_eq_false_2; [reflexivity|]. intros [? _]. contradiction.
Qed.

Lemma MakeDir_memory (notfound : string) (w : World)
    (driver : GoogleStorageDriver) (path : string) :
  let dir := strings_TrimLeft path "/" ++ "/" in
  run (memory notfound) (MakeDir driver path) w =
    (Returned None,
     with_objects w (<[(getUserBucket driver, dir) := obj dir 0 ""]> (objects w))).
Proof. reflexivity. Qed.

Lemma append_slash_differs (s : string) : s ≠ s ++ "/".
Proof. induction s as [|c s IH]; [discriminate|]. simpl. intros [= H]. exact (IH H). Qed.

Lemma TrimLeft_all_in_cutset (s cutset : string) :
  (∀ c, in_cutset c s = true → in_cutset c cutset = true) →
  strings_TrimLeft s cutset = "".
Proof.
  induction s as [|x s IH]; intros Hsub; simpl; [reflexivity|].
  rewrite (Hsub x) by (simpl; rewrite Ascii.eqb_refl; reflexivity).
  apply IH. intros c Hc. apply Hsub. simpl. rewrite Hc. destruct (Ascii.eqb c x); reflexivity.
Qed.

(** X16. On the reference backend, after [MakeDir(path)] the directory
    is found: for a path not ending in "/" whose key holds no object,
    [Stat(path)] returns a directory entity and no error. *)
Theorem MakeDir_then_Stat (notfound : string) (w : World)
    (driver : GoogleStorageDriver) (path : string) :
  strings_HasSuffix path "/" = false →
  objects w !! (getUserBucket driver, strings_TrimLeft path "/") = None →
  let made := run (memory notfound) (MakeDir driver path) w in
  made.1 = Returned None ∧
  run (memory notfound) (Stat driver path) made.2 =
    (Returned (Some {| name := path; isDir := true; User := LoginUser (conn driver);
                       Object := storage.Object_zero |}, None), made.2).
Proof.
  intros Hs Hnone made. unfold made. rewrite MakeDir_memory. simpl. split; [reflexivity|].
  set (b := getUserBucket driver) in *. set (K := strings_TrimLeft path "/") in *.
  unfold Stat. rewrite Hs. simpl. fold b K.
  rewrite lookup_insert_ne
    by (intros [= H]; symmetry in H; exact (append_slash_differs K H)).
  rewrite Hnone. simpl.
  destruct (listing (<[(b, K ++ "/"):=obj (K ++ "/") 0 ""]> (objects w)) b K)
    as [|o l] eqn:Hl; [|reflexivity].
  rewrite listing_nil in Hl.
  pose proof (Hl (K ++ "/") _ (lookup_insert_eq _ _ _)) as Hno.
  rewrite HasPrefix_app in Hno. discriminate.
Qed.

Lemma MakeDir_then_Stat_witness :
  let made := run (memory "not found") (MakeDir alice_driver "/new") (world_of []) in
  made.1 = Returned None ∧
  run (memory "not found") (Stat alice_driver "/new") made.2 =
    (Returned (Some {| name := "/new"; isDir := true; User := "alice";
                       Object := storage.Object_zero |}, None), made.2).
Proof.
  exact (MakeDir_then_Stat "not found" (world_of []) alice_driver "/new" eq_refl eq_refl).
Defined.

(** X17. On the reference backend, when no object of the user's bucket
    has a key beginning with the key of [path], [MakeDir(path)] followed by
    [DeleteDir(path)] leaves the backend exactly as it was before. *)
Theorem MakeDir_then_DeleteDir (notfound : string) (w : World)
    (driver : GoogleStorageDriver) (path : string) :
  let b := getUserBucket driver in
  let K := strings_TrimLeft path "/" in
  (∀ k o, objects w !! (b, k) = Some o → strings_HasPrefix k K = false) →
  let made := run (memory notfound) (MakeDir driver path) w in
  run (memory notfound) (DeleteDir driver path) made.2 = (Returned None, w).
Proof.
  intros b K Hfree made. unfold made. rewrite MakeDir_memory, DeleteDir_memory. simpl.
  fold b K. f_equal. destruct w as [m v c]. unfold with_objects. simpl in *.
  f_equal. apply map_eq. intros [b' k]. rewrite delete_listing_lookup.
  destruct (decide (b' = b)) as [->|Hb].
  - rewrite (bool_decide_eq_true_2 (b = b)) by reflexivity. simpl.
    destruct (strings_HasPrefix k K) eqn:Hp.
    + destruct (m !! (b, k)) as [o|] eqn:Hm; [|reflexivity].
      rewrite (Hfree _ _ Hm) in Hp. discriminate.
    + apply lookup_insert_ne. intros [= <-]. rewrite HasPrefix_app in Hp. discriminate.
  - rewrite (bool_decide_eq_false_2 (b' = b)) by exact Hb. simpl.
    apply lookup_insert_ne. congruence.
Qed.

Lemma MakeDir_then_DeleteDir_witness :
  run (memory "not found") (DeleteDir alice_driver "/new")
      (run (memory "not found") (MakeDir alice_driver "/new")
           (world_of [obj "old/a" 1 ""])).2
    = (Returned None, world_of [obj "old/a" 1 ""]).
Proof.
  apply (MakeDir_then_DeleteDir "not found" (world_of [obj "old/a" 1 ""]) alice_driver "/new").
  intros k o Hm. unfold world_of in Hm. simpl in Hm.
  destruct (decide (("bkt", k) = ("bkt", "old/a"))) as [[= ->]|Hne]; [reflexivity|].
  rewrite lookup_insert_ne in Hm by congruence. rewrite lookup_empty in Hm. discriminate.
Defined.

Lemma ListDir_entities_own_key (driver : GoogleStorageDriver) (prefix d : string)
    (items : list storage.Object) (dirCache : gmap string bool) :
  (∀ o, o ∈ items → storage.Name o = d) →
  ListDir_entities driver prefix d dirCache items = [].
Proof.
  induction items as [|entry rest IH]; intros Hall; [reflexivity|].
  cbn [ListDir_entities].
  assert (Hrest : ListDir_entities driver prefix d dirCache rest = [])
    by (apply IH; intros o Ho; apply Hall; right; exact Ho).
  destruct (negb (String.eqb prefix "/") && negb (String.eqb prefix "")
            && negb (strings_HasPrefix (storage.Name entry) d)); [exact Hrest|].
  cbv zeta. rewrite (Hall entry) by left.
  rewrite (TrimLeft_all_in_cutset d d) by auto. simpl. exact Hrest.
Qed.

(** X18. On the reference backend, the placeholder object that
    [MakeDir(path)] inserts is not listed as an entry of its own
    directory: when nothing else lies under the directory key,
    [ListDir(path)] after [MakeDir(path)] hands nothing to the callback. *)
Theorem MakeDir_then_ListDir_empty (notfound : string) (w : World)
    (driver : GoogleStorageDriver) (path : string) :
  let b := getUserBucket driver in
  let d := strings_TrimLeft path "/" ++ "/" in
  String.eqb (strings_TrimLeft path "/") "" = false →
  (∀ k o, objects w !! (b, k) = Some o → strings_HasPrefix k d = false) →
  let made := run (memory notfound) (MakeDir driver path) w in
  run (memory notfound) (ListDir driver path visitor) made.2 = (Returned None, made.2).
Proof.
  intros b d Hne Hfree made. unfold made. rewrite MakeDir_memory, ListDir_memory. simpl.
  rewrite Hne. simpl. fold b d.
  rewrite ListDir_entities_own_key; [rewrite app_nil_r; reflexivity|].
  intros o Ho. apply elem_of_listing in Ho as (k & o' & Hm & Hp & ->). rewrite Name_named.
  destruct (decide ((b, d) = (b, k))) as [[= <-]|Hk]; [reflexivity|].
  rewrite lookup_insert_ne in Hm by exact Hk. rewrite (Hfree _ _ Hm) in Hp. discriminate.
Qed.

Lemma MakeDir_then_ListDir_empty_witness :
  run (memory "not found") (ListDir alice_driver "/new" visitor)
      (run (memory "not found") (MakeDir alice_driver "/new") (world_of [])).2
    = (Returned None, (run (memory "not found") (MakeDir alice_driver "/new") (world_of [])).2).
Proof.
  apply (MakeDir_then_ListDir_empty "not found" (world_of []) alice_driver "/new" eq_refl).
  intros k o Hm. unfold world_of in Hm. simpl in Hm. rewrite lookup_empty in Hm. discriminate.
Defined.

(** ** ListDir: every listed entry is accounted for *)

Lemma ListDir_entities_complete (driver : GoogleStorageDriver) (prefix d : string)
    (items : list storage.Object) (entry : storage.Object) :
  let key := strings_TrimLeft (strings_TrimLeft (storage.Name entry) d) "/" in
  strings_HasPrefix (storage.Name entry) d = true →
  String.eqb key "" = false →
  ∀ (dirCache : gmap string bool),
    entry ∈ items →
    if strings_Contains key "/" then
      ∀ first rest, strings_Split key "/" = first :: rest →
        is_Some (dirCache !! first) ∨
        ∃ f, f ∈ ListDir_entities driver prefix d dirCache items ∧
             name f = first ∧ isDir f = true
    else
      {| name := key; isDir := false; User := LoginUser (conn driver); Object := entry |}
        ∈ ListDir_entities driver prefix d dirCache items.
Proof.
  intros key Hpre Hne. induction items as [|e rest IH]; intros dirCache Hin; [inversion Hin|].
  assert (Hlater : ∀ (f0 : list FileInfo) (dirCache' : gmap string bool),
            (∀ n, is_Some (dirCache' !! n) →
                  is_Some (dirCache !! n) ∨ ∃ f, f ∈ f0 ∧ name f = n ∧ isDir f = true) →
            entry ∈ rest →
            if strings_Contains key "/" then
              ∀ first more, strings_Split key "/" = first :: more →
                is_Some (dirCache !! first) ∨
                ∃ f, f ∈ (f0 ++ ListDir_entities driver prefix d dirCache' rest)%list ∧
                     name f = first ∧ isDir f = true
            else
              {| name := key; isDir := false; User := LoginUser (conn driver); Object := entry |}
                ∈ (f0 ++ ListDir_entities driver prefix d dirCache' rest)%list).
  { intros f0 dirCache' Hcache Hrest. specialize (IH dirCache' Hrest).
    destruct (strings_Contains key "/").
    - intros first more Hs. destruct (IH first more Hs) as [Hc|(f & Hf & Hn & Hd)].
      + destruct (Hcache _ Hc) as [H|(f & Hf & Hn & Hd)]; [left; exact H|].
        right. exists f. split; [apply elem_of_app; left; exact Hf|auto].
      + right. exists f. split; [apply elem_of_app; right; exact Hf|auto].
    - apply elem_of_app. right. exact IH. }
  cbn [ListDir_entities].
  destruct (decide (entry = e)) as [<-|Hneq].
  - rewrite Hpre, andb_false_r. cbv zeta. fold key. rewrite Hne.
    destruct (strings_Contains key "/") eqn:Hc; [|left].
    intros first more Hs. rewrite Hs.
    destruct (directory_name_of_key (strings_TrimLeft (storage.Name entry) d) Hne)
      as (first' & more' & Hs' & Htrim & _). fold key in Hs'. rewrite Hs in Hs'.
    assert (first' = first) as -> by congruence. rewrite Htrim.
    destruct (dirCache !! first) eqn:Hlook; [left; eauto|].
    right. eexists. split; [left|]. split; reflexivity.
  - assert (Hrest : entry ∈ rest) by (inversion Hin; subst; [congruence|assumption]).
    destruct (negb (String.eqb prefix "/") && negb (String.eqb prefix "")
              && negb (strings_HasPrefix (storage.Name e) d)).
    { apply (Hlater [] dirCache); [intros n Hn; left; exact Hn|exact Hrest]. }
    cbv zeta.
    destruct (String.eqb (strings_TrimLeft (strings_TrimLeft (storage.Name e) d) "/") "")
      eqn:Hne'.
    { apply (Hlater [] dirCache); [intros n Hn; left; exact Hn|exact Hrest]. }
    destruct (strings_Contains (strings_TrimLeft (strings_TrimLeft (storage.Name e) d) "/") "/").
    + destruct (directory_name_of_key (strings_TrimLeft (storage.Name e) d) Hne')
        as (first' & more' & Hs' & Htrim & _). rewrite Hs', Htrim.
      destruct (dirCache !! first') eqn:Hlook.
      { apply (Hlater [] dirCache); [intros n Hn; left; exact Hn|exact Hrest]. }
      apply (Hlater [_] (<[first' := true]> dirCache)); [|exact Hrest].
      intros n Hn. destruct (decide (first' = n)) as [<-|Hd].
      * right. eexists. split; [left|]. split; reflexivity.
      * rewrite lookup_insert_ne in Hn by exact Hd. left. exact Hn.
    + apply (Hlater [_] dirCache); [intros n Hn; left; exact Hn|exact Hrest].
Qed.

(** X19. On the reference backend, take an object of the user's bucket
    whose key is the listing prefix followed by a remainder that begins
    with a character occurring neither in the prefix nor equal to "/".
    Then [ListDir] hands the callback, for a remainder without "/", the
    file entity named exactly by the remainder and embedding the object;
    and for a remainder with "/", a directory entity named by the first
    segment of the remainder. *)
Theorem ListDir_lists_clean_entries (notfound : string) (w : World)
    (driver : GoogleStorageDriver) (prefix : string)
    (c : ascii) (r : string) (o : storage.Object) :
  let b := getUserBucket driver in
  let d := strings_TrimLeft prefix "/" in
  let d := if negb (String.eqb d "") then d ++ "/" else d in
  let remainder := String c r in
  in_cutset c d = false → in_cutset c "/" = false →
  objects w !! (b, d ++ remainder) = Some o →
  let seen := visited (run (memory notfound) (ListDir driver prefix visitor) w).2 in
  if strings_Contains remainder "/" then
    ∃ f first rest, f ∈ seen ∧ strings_Split remainder "/" = first :: rest ∧
                    name f = first ∧ isDir f = true
  else
    {| name := remainder; isDir := false; User := LoginUser (conn driver);
       Object := named (d ++ remainder) o |} ∈ seen.
Proof.
  intros b d0 d remainder Hc Hs Hm seen. unfold seen. rewrite ListDir_memory.
  cbn [snd visited]. fold b d0 d.
  assert (Hin : named (d ++ remainder) o ∈ listing (objects w) b d).
  { apply elem_of_listing. exists (d ++ remainder), o. rewrite HasPrefix_app. auto. }
  pose proof (ListDir_entities_complete driver prefix d (listing (objects w) b d)
                (named (d ++ remainder) o)) as Hcomplete.
  rewrite Name_named in Hcomplete. unfold remainder in Hcomplete.
  rewrite (TrimLeft_removes_prefix d c r Hc Hs) in Hcomplete.
  specialize (Hcomplete (HasPrefix_app _ _) eq_refl ∅ Hin). fold remainder in Hcomplete.
  destruct (strings_Contains remainder "/") eqn:Hcont.
  - destruct (directory_name_of_key remainder) as (first & rest & Hsplit & _).
    { unfold remainder. simpl. simpl in Hs. rewrite Hs. reflexivity. }
    assert (Hkey : strings_TrimLeft remainder "/" = remainder).
    { unfold remainder. simpl. simpl in Hs. rewrite Hs. reflexivity. }
    rewrite Hkey in Hsplit.
    destruct (Hcomplete first rest Hsplit) as [[x Hx]|(f & Hf & Hn & Hd)].
    + rewrite lookup_empty in Hx. discriminate.
    + exists f, first, rest. split; [apply elem_of_app; right; exact Hf|]. auto.
  - apply elem_of_app. right. exact Hcomplete.
Qed.

Lemma ListDir_lists_clean_entries_witness :
  let seen := visited (run (memory "not found") (ListDir alice_driver "/photos" visitor)
                           (world_of [obj "photos/2020/b.jpg" 5 ""; obj "photos/a.jpg" 3 ""])).2 in
  (∃ f first rest, f ∈ seen ∧ strings_Split "2020/b.jpg" "/" = first :: rest ∧
                   name f = first ∧ isDir f = true) ∧
  {| name := "a.jpg"; isDir := false; User := "alice"; Object := obj "photos/a.jpg" 3 "" |}
    ∈ seen.
Proof.
  split.
  - exact (ListDir_lists_clean_entries "not found"
             (world_of [obj "photos/2020/b.jpg" 5 ""; obj "photos/a.jpg" 3 ""])
             alice_driver "/photos" "2" "020/b.jpg" (obj "photos/2020/b.jpg" 5 "")
             eq_refl eq_refl eq_refl).
  - exact (ListDir_lists_clean_entries "not found"
             (world_of [obj "photos/2020/b.jpg" 5 ""; obj "photos/a.jpg" 3 ""])
             alice_driver "/photos" "a" ".jpg" (obj "photos/a.jpg" 3 "")
             eq_refl eq_refl eq_refl).
Defined.

(** ** Rename: the remaining paths *)

(** X20. On the reference backend, [Rename] of a key that holds an
    object to a different key returns nil; afterwards the destination
    holds what the source held (replacing whatever was there), the source
    is absent, and no other object is touched. *)
Theorem Rename_file_moves (notfound : string) (w : World)
    (driver : GoogleStorageDriver) (keySrc keyDest : string) (o : storage.Object) :
  let b := getUserBucket driver in
  let from := strings_TrimLeft keySrc "/" in
  let to := strings_TrimLeft keyDest "/" in
  objects w !! (b, from) = Some o →
  from ≠ to →
  ∃ w', run (memory notfound) (Rename driver keySrc keyDest) w = (Returned None, w') ∧
        objects w' !! (b, to) = Some (named to o) ∧
        objects w' !! (b, from) = None ∧
        ∀ k, k ≠ (b, from) → k ≠ (b, to) → objects w' !! k = objects w !! k.
Proof.
  intros b from to Hm Hne.
  exists (with_objects w (delete (b, from) (<[(b, to) := named to o]> (objects w)))).
  split; [|split; [|split]].
  - unfold Rename. simpl. fold b from to. rewrite Hm. simpl. rewrite Hm. simpl.
    rewrite lookup_insert_ne by congruence. rewrite Hm. reflexivity.
  - simpl. rewrite lookup_delete_ne by congruence. apply lookup_insert_eq.
  - simpl. apply lookup_delete_eq.
  - intros k Hf Ht. simpl. rewrite lookup_delete_ne by congruence.
    apply lookup_insert_ne. congruence.
Qed.

Lemma Rename_file_moves_witness :
  ∃ w', run (memory "not found") (Rename alice_driver "/a" "/b")
            (world_of [obj "a" 3 ""; obj "b" 9 ""]) = (Returned None, w') ∧
        objects w' !! ("bkt", "b") = Some (obj "b" 3 "") ∧
        objects w' !! ("bkt", "a") = None.
Proof.
  destruct (Rename_file_moves "not found" (world_of [obj "a" 3 ""; obj "b" 9 ""])
              alice_driver "/a" "/b" (obj "a" 3 "") eq_refl)
    as (w' & Hrun & Hto & Hfrom & _); [discriminate|].
  exists w'. auto.
Defined.

(** X21. On the reference backend, [Rename] of a key that holds an
    object onto the same key (the two paths differing at most in leading
    separators) returns nil and the object is gone: it is copied onto
    itself and then deleted. *)
Theorem Rename_onto_itself_deletes (notfound : string) (w : World)
    (driver : GoogleStorageDriver) (keySrc keyDest : string) (o : storage.Object) :
  let b := getUserBucket driver in
  let from := strings_TrimLeft keySrc "/" in
  objects w !! (b, from) = Some o →
  strings_TrimLeft keyDest "/" = from →
  ∃ w', run (memory notfound) (Rename driver keySrc keyDest) w = (Returned None, w') ∧
        objects w' !! (b, from) = None ∧
        ∀ k, k ≠ (b, from) → objects w' !! k = objects w !! k.
Proof.
  intros b from Hm Hsame.
  exists (with_objects w (delete (b, from) (<[(b, from) := named from o]> (objects w)))).
  split; [|split].
  - unfold Rename. simpl. fold b from. rewrite Hsame, Hm. simpl. rewrite Hm. simpl.
    rewrite lookup_insert_eq. reflexivity.
  - simpl. apply lookup_delete_eq.
  - intros k Hk. simpl. rewrite lookup_delete_ne by congruence.
    apply lookup_insert_ne. congruence.
Qed.

Lemma Rename_onto_itself_deletes_witness :
  ∃ w', run (memory "not found") (Rename alice_driver "/a" "a")
            (world_of [obj "a" 3 ""]) = (Returned None, w') ∧
        objects w' !! ("bkt", "a") = None.
Proof.
  destruct (Rename_onto_itself_deletes "not found" (world_of [obj "a" 3 ""])
              alice_driver "/a" "a" (obj "a" 3 "") eq_refl eq_refl)
    as (w' & Hrun & Hgone & _).
  exists w'. auto.
Defined.

(** X22. Under every backend, when the lookup of the source fails with
    an error whose text does not contain "no such file or directory",
    [Rename] prints the error and returns it: nothing is copied or
    deleted, and the directory branch is not entered. *)
Theorem Rename_lookup_error {W : Type} (h : handler W) (w w0 w1 w2 : W)
    (driver : GoogleStorageDriver) (keySrc keyDest : string)
    (entry : option storage.Object) (e : error_value) :
  let b := getUserBucket driver in
  let from := strings_TrimLeft keySrc "/" in
  h (fmt_Println ["rename from"; keySrc; keyDest]) w = (tt, w0) →
  h (Objects_Get b from) w0 = ((entry, Some e), w1) →
  strings_Contains (Error e) no_such_file = false →
  h (fmt_Println [Error e]) w1 = (tt, w2) →
  run (traced h) (Rename driver keySrc keyDest) (w, []) =
    (Returned (Some e),
     (w2, [fmt_Println ["rename from"; keySrc; keyDest]; Objects_Get b from;
           fmt_Println [Error e]])).
Proof.
  intros b from Hp Hg Hc Hp'. unfold Rename. simpl. rewrite Hp. simpl.
  fold b from. rewrite Hg. simpl. rewrite Hc. simpl. rewrite Hp'. reflexivity.
Qed.

(** A backend that reports a missing object as "googleapi: Error 404: Not
    Found" never lets [Rename] reach its directory branch. *)
Lemma Rename_lookup_error_witness :
  run (traced (memory "googleapi: Error 404: Not Found")) (Rename alice_driver "/d" "/e")
      (world_of [obj "d/" 0 ""; obj "d/x" 5 ""], []) =
    (Returned (Some (errors_New "googleapi: Error 404: Not Found")),
     (world_of [obj "d/" 0 ""; obj "d/x" 5 ""],
      [fmt_Println ["rename from"; "/d"; "/e"]; Objects_Get "bkt" "d";
       fmt_Println ["googleapi: Error 404: Not Found"]])).
Proof.
  exact (Rename_lookup_error (memory "googleapi: Error 404: Not Found")
           (world_of [obj "d/" 0 ""; obj "d/x" 5 ""]) (world_of [obj "d/" 0 ""; obj "d/x" 5 ""])
           (world_of [obj "d/" 0 ""; obj "d/x" 5 ""]) (world_of [obj "d/" 0 ""; obj "d/x" 5 ""])
           alice_driver "/d" "/e" None (errors_New "googleapi: Error 404: Not Found")
           eq_refl eq_refl eq_refl eq_refl).
Defined.

(** X23. On the reference backend whose missing-object error carries
    the words "no such file or directory": when neither the source key nor
    the source directory key (trailing separator appended) holds an object,
    [Rename] returns the missing-object error and changes nothing, even if
    objects lie under the source directory key. *)
Theorem Rename_directory_needs_placeholder (notfound : string) (w : World)
    (driver : GoogleStorageDriver) (keySrc keyDest : string) :
  let b := getUserBucket driver in
  let from := strings_TrimLeft keySrc "/" in
  strings_Contains notfound no_such_file = true →
  objects w !! (b, from) = None →
  objects w !! (b, from ++ "/") = None →
  run (memory notfound) (Rename driver keySrc keyDest) w =
    (Returned (Some (errors_New notfound)), w).
Proof.
  intros b from Hnf Hfile Hdir. unfold Rename. simpl. fold b from.
  rewrite Hfile. simpl. rewrite Hnf. simpl. fold b from. rewrite Hdir. reflexivity.
Qed.

Lemma Rename_directory_needs_placeholder_witness :
  run (memory "open d: no such file or directory") (Rename alice_driver "/d" "/e")
      (world_of [obj "d/x" 5 ""; obj "d/y" 7 ""]) =
    (Returned (Some (errors_New "open d: no such file or directory")),
     world_of [obj "d/x" 5 ""; obj "d/y" 7 ""]).
Proof.
  exact (Rename_directory_needs_placeholder "open d: no such file or directory"
           (world_of [obj "d/x" 5 ""; obj "d/y" 7 ""]) alice_driver "/d" "/e"
           eq_refl eq_refl eq_refl).
Defined.

(** X24. On the reference backend whose missing-object error carries
    the words "no such file or directory": when the source key holds no
    object, the source directory key holds one, and neither directory key
    is a prefix of the other, [Rename] returns nil; every object under the
    source directory key is gone, each is found under the destination
    directory key with the same remainder, and every object under neither
    directory key is untouched. *)
Theorem Rename_directory_moves_tree (notfound : string) (w : World)
    (driver : GoogleStorageDriver) (keySrc keyDest : string) :
  let b := getUserBucket driver in
  let from := strings_TrimLeft keySrc "/" ++ "/" in
  let to := strings_TrimLeft keyDest "/" ++ "/" in
  strings_Contains notfound no_such_file = true →
  objects w !! (b, strings_TrimLeft keySrc "/") = None →
  is_Some (objects w !! (b, from)) →
  strings_HasPrefix from to = false → strings_HasPrefix to from = false →
  ∃ w', run (memory notfound) (Rename driver keySrc keyDest) w = (Returned None, w') ∧
        (∀ r, objects w' !! (b, from ++ r) = None) ∧
        (∀ r x, objects w !! (b, from ++ r) = Some x →
                objects w' !! (b, to ++ r) = Some (named (to ++ r) x)) ∧
        (∀ b' k, (b' = b → strings_HasPrefix k from = false ∧ strings_HasPrefix k to = false) →
                 objects w' !! (b', k) = objects w !! (b', k)).
Proof.
  intros b from to Hnf Hnone Hdir Hft Htf.
  destruct (Rename_directory_memory notfound w driver keySrc keyDest Hnf Hnone Hdir Hft Htf)
    as (w' & Hrun & _ & _ & Hgone & Hmoved & Hother).
  exists w'. auto.
Qed.

Lemma Rename_directory_moves_tree_witness :
  ∃ w', run (memory "open: no such file or directory") (Rename alice_driver "/old" "/new")
            (world_of [obj "old/" 0 ""; obj "old/a/b" 5 ""; obj "other" 7 ""])
          = (Returned None, w') ∧
        objects w' !! ("bkt", "old/a/b") = None ∧
        objects w' !! ("bkt", "new/a/b") = Some (obj "new/a/b" 5 "") ∧
        objects w' !! ("bkt", "other") = Some (obj "other" 7 "").
Proof.
  destruct (Rename_directory_moves_tree "open: no such file or directory"
              (world_of [obj "old/" 0 ""; obj "old/a/b" 5 ""; obj "other" 7 ""])
              alice_driver "/old" "/new" eq_refl eq_refl)
    as (w' & Hrun & Hgone & Hmoved & Hother);
    [eexists; reflexivity|reflexivity|reflexivity|].
  exists w'. split; [exact Hrun|]. split; [exact (Hgone "a/b")|]. split.
  - exact (Hmoved "a/b" (obj "old/a/b" 5 "") eq_refl).
  - rewrite (Hother "bkt" "other"); [reflexivity|]. intros _. split; reflexivity.
Defined.

(** ** Buckets *)

(** X25. With per-user buckets and one base bucket name, two sessions
    are given the same bucket only if they are logged in as the same user. *)
Theorem getUserBucket_separates_users (driver driver' : GoogleStorageDriver) :
  bucketPerUser driver = true → bucketPerUser driver' = true →
  bucket driver = bucket driver' →
  getUserBucket driver = getUserBucket driver' →
  LoginUser (conn driver) = LoginUser (conn driver').
Proof.
  unfold getUserBucket. intros -> -> -> Heq.
  apply append_inj_r in Heq. apply (append_inj_r "-") in Heq. exact Heq.
Qed.

Lemma getUserBucket_separates_users_witness :
  LoginUser (conn {| curDir := "/"; bucket := "ftp"; bucketPerUser := true;
                     conn := {| user := "alice" |} |})
  = LoginUser (conn {| curDir := "/tmp/"; bucket := "ftp"; bucketPerUser := true;
                       conn := {| user := "alice" |} |}).
Proof.
  exact (getUserBucket_separates_users
           {| curDir := "/"; bucket := "ftp"; bucketPerUser := true;
              conn := {| user := "alice" |} |}
           {| curDir := "/tmp/"; bucket := "ftp"; bucketPerUser := true;
              conn := {| user := "alice" |} |} eq_refl eq_refl eq_refl eq_refl).
Defined.

(** ** File information *)

(** X26. [Size] is a signed 64-bit number: it equals the object's size
    when that is below 2^63, and is negative for the sizes from 2^63 up to
    2^64 - 1. *)
Theorem Size_is_signed (f : FileInfo) :
  let s := storage.Size (Object f) in
  0 ≤ s < 2 ^ 64 →
  - 2 ^ 63 ≤ Size f < 2 ^ 63 ∧
  (s < 2 ^ 63 → Size f = s) ∧
  (2 ^ 63 ≤ s → Size f = s - 2 ^ 64 ∧ Size f < 0).
Proof.
  intros s Hs. unfold Size. fold s. rewrite Z.mod_small by exact Hs.
  destruct (Z.ltb_spec s (2 ^ 63)); lia.
Qed.

Lemma Size_is_signed_witness :
  Size {| name := "big"; isDir := false; User := "alice";
          Object := obj "big" (2 ^ 64 - 1) "" |} = -1.
Proof.
  pose proof (Size_is_signed {| name := "big"; isDir := false; User := "alice";
                                Object := obj "big" (2 ^ 64 - 1) "" |}) as H.
  simpl in H. destruct H as (_ & _ & H); [lia|]. destruct H as [H _]; [lia|]. exact H.
Defined.

(** X27. [Mode] carries the directory bit exactly for directory
    entities, and always grants every permission (0777), whatever the
    object. *)
Theorem Mode_bits (f : FileInfo) :
  Z.testbit (Mode f) 31 = IsDir f ∧ Z.land (Mode f) 511 = 511 ∧
  Mode f = (if IsDir f then 2 ^ 31 + 511 else 511).
Proof. unfold Mode, IsDir. destruct (isDir f); repeat split. Qed.

(** ** GetFile and PutFile *)

(** X28. Under every backend, whenever [PutFile] returns it reports 0
    bytes written and no error, whatever the data and the append flag; and
    when the insert fails it does not return: the process is ended. *)
Theorem PutFile_never_reports_failure {W : Type} (h : transfer_handler W) (w : W)
    (driver : GoogleStorageDriver) (objectName data : string) (appendData : bool) :
  (∀ n err w', run_transfer h (PutFile driver objectName data appendData) w
                 = (Finished (n, err), w') → n = 0 ∧ err = None) ∧
  (∀ res e w1,
      h (Storage (Objects_Insert (getUserBucket driver)
                    {| storage.Name := strings_TrimLeft objectName "/"; storage.Size := 0;
                       storage.Updated := ""; storage.MediaLink := "";
                       storage.SelfLink := "" |} data)) w = ((res, Some e), w1) →
      ∃ args, run_transfer h (PutFile driver objectName data appendData) w
                = (Exited_with args, w1)).
Proof.
  unfold PutFile. simpl. split.
  - intros n err w'. destruct (h (Storage _) w) as [[res [e|]] w1]; simpl; [discriminate|].
    destruct res as [res|]; simpl; [|discriminate].
    destruct (h (log_Info _) w1) as [[] w2]. simpl. intros [= <- <- <-]. split; reflexivity.
  - intros res e w1 Hi. rewrite Hi. simpl. eexists. reflexivity.
Qed.

Lemma PutFile_never_reports_failure_witness :
  run_transfer (with_http (memory "not found") (fun _ => (None, None)))
               (PutFile alice_driver "/a.txt" "hello" true) (world_of [])
    = (Finished (0, None), world_of [obj "a.txt" 5 ""]) ∧
  ∃ args,
    run_transfer (with_http (memory_faulty (fun _ => true) "not found") (fun _ => (None, None)))
                 (PutFile alice_driver "/a.txt" "hello" true) (world_of [])
      = (Exited_with args, world_of []).
Proof.
  split; [reflexivity|].
  exact (proj2 (PutFile_never_reports_failure
                  (with_http (memory_faulty (fun _ => true) "not found") (fun _ => (None, None)))
                  (world_of []) alice_driver "/a.txt" "hello" true)
           None unavailable (world_of []) eq_refl).
Defined.

(** X29. On the reference backend [PutFile] is a full overwrite: whether
    or not an object was stored at the key and whatever the append flag,
    afterwards [Stat] of the same path (not ending in "/") finds a file
    whose size is the length of the data just written; no other key of the
    backend is touched. *)
Theorem PutFile_overwrites (notfound : string) (w : World)
    (fetch : string → option http_Response * error)
    (driver : GoogleStorageDriver) (objectName data : string) (appendData : bool) :
  let b := getUserBucket driver in
  let K := strings_TrimLeft objectName "/" in
  strings_HasSuffix objectName "/" = false →
  let put := run_transfer (with_http (memory notfound) fetch)
                          (PutFile driver objectName data appendData) w in
  put.1 = Finished (0, None) ∧
  run (memory notfound) (Stat driver objectName) put.2 =
    (Returned (Some {| name := objectName; isDir := false; User := LoginUser (conn driver);
                       Object := obj K (Z.of_nat (String.length data)) "" |}, None),
     put.2) ∧
  ∀ k, k ≠ (b, K) → objects put.2 !! k = objects w !! k.
Proof.
  intros b K Hs put. unfold put, PutFile. simpl. fold b K. split; [reflexivity|]. split.
  - unfold Stat. rewrite Hs. simpl. fold b K. rewrite lookup_insert_eq. reflexivity.
  - intros k Hk. apply lookup_insert_ne. congruence.
Qed.

Lemma PutFile_overwrites_witness :
  let put := run_transfer (with_http (memory "not found") (fun _ => (None, None)))
                          (PutFile alice_driver "/a.txt" "hi" true)
                          (world_of [obj "a.txt" 100 ""]) in
  put.1 = Finished (0, None) ∧
  run (memory "not found") (Stat alice_driver "/a.txt") put.2 =
    (Returned (Some {| name := "/a.txt"; isDir := false; User := "alice";
                       Object := obj "a.txt" 2 "" |}, None), put.2).
Proof.
  destruct (PutFile_overwrites "not found" (world_of [obj "a.txt" 100 ""])
              (fun _ => (None, None)) alice_driver "/a.txt" "hi" true eq_refl)
    as (H1 & H2 & _).
  split; [exact H1|exact H2].
Defined.

(** X30. Under every backend, whenever [GetFile] returns it reports no
    error.  When the lookup and the fetch both answer with a result, what
    it returns is the declared size of the object (as a signed 64-bit
    number) and the body fetched from the object's media link, whatever
    error the fetch reported and whatever the offset; when the lookup fails
    the process is ended. *)
Theorem GetFile_never_reports_failure {W : Type} (h : transfer_handler W) (w : W)
    (driver : GoogleStorageDriver) (objectName : string) (offset : Z) :
  let b := getUserBucket driver in
  let K := strings_TrimLeft objectName "/" in
  (∀ size body err w', run_transfer h (GetFile driver objectName offset) w
                         = (Finished (size, body, err), w') → err = None) ∧
  (∀ res w1 w2 w3 w4 response fetchErr,
      h (Storage (Objects_Get b K)) w = ((Some res, None), w1) →
      h (log_Infof ("The media download link for %v/%v is %v." ++ newline ++ newline)
                   [as_text b; as_text (storage.Name res); as_text (storage.MediaLink res)]) w1
        = (tt, w2) →
      h (httpClient_Get (storage.MediaLink res)) w2 = ((Some response, fetchErr), w3) →
      h (log_Info [as_number (int64 (storage.Size res))]) w3 = (tt, w4) →
      run_transfer h (GetFile driver objectName offset) w
        = (Finished (int64 (storage.Size res), Body response, None), w4)) ∧
  (∀ res e w1, h (Storage (Objects_Get b K)) w = ((res, Some e), w1) →
               ∃ args, run_transfer h (GetFile driver objectName offset) w
                         = (Exited_with args, w1)).
Proof.
  intros b K. unfold GetFile. simpl. fold b K. split; [|split].
  - intros size body err w'.
    destruct (h (Storage _) w) as [[res [e|]] w1]; simpl; [discriminate|].
    destruct res as [res|]; simpl; [|discriminate].
    destruct (h (log_Infof _ _) w1) as [[] w2]. simpl.
    destruct (h (httpClient_Get _) w2) as [[response herr] w3]. simpl.
    destruct (h (log_Info _) w3) as [[] w4]. simpl.
    destruct response as [response|]; simpl; [|discriminate].
    intros [= <- <- <- <-]. reflexivity.
  - intros res w1 w2 w3 w4 response fetchErr Hg Hi Hf Hl.
    rewrite Hg. simpl. rewrite Hi. simpl. rewrite Hf. simpl. rewrite Hl. reflexivity.
  - intros res e w1 Hg. rewrite Hg. simpl. eexists. reflexivity.
Qed.

Lemma GetFile_never_reports_failure_witness :
  run_transfer (with_http (memory "not found")
                          (fun url => (Some {| Body := "partial" |},
                                       Some (errors_New "connection reset"))))
               (GetFile alice_driver "/a.txt" 3) (world_of [obj "a.txt" 100 ""])
    = (Finished (100, "partial", None), world_of [obj "a.txt" 100 ""]).
Proof.
  exact (proj1 (proj2 (GetFile_never_reports_failure
                         (with_http (memory "not found")
                                    (fun url => (Some {| Body := "partial" |},
                                                 Some (errors_New "connection reset"))))
                         (world_of [obj "a.txt" 100 ""]) alice_driver "/a.txt" 3))
           (obj "a.txt" 100 "") (world_of [obj "a.txt" 100 ""]) (world_of [obj "a.txt" 100 ""])
           (world_of [obj "a.txt" 100 ""]) (world_of [obj "a.txt" 100 ""])
           {| Body := "partial" |} (Some (errors_New "connection reset"))
           eq_refl eq_refl eq_refl eq_refl).
Defined.
